(** * classifier.c: the coordinator of the parallel kNN classifier

    A shallow embedding of [main] of [src/classifier.c]: command-line
    parsing, distance-metric selection, the spawning of the workers, the
    partition of the testing set, and the collection of the results.

    The parent process is modelled as a computation that emits a trace of
    the calls it makes (standard streams, [load_dataset], [pipe], [fork],
    [write], [wait], [read], [close]) and ends with an exit status.  What
    the operating system and the code of [knn.c] answer is read from a
    [world] record.  The trace holds what the parent itself does.  Of
    a child, the model has what it does to its pipe ([run_worker]) and
    what it writes to the output stream when it leaves ([child],
    [stream]); every child is taken to terminate. *)

From Stdlib Require Import ZArith List Bool Lia String Ascii QArith Qround.
From Stdlib Require Import Permutation DecimalString.
From Stdlib Require DecimalPos.
Import ListNotations.

Local Open Scope string_scope.
Local Open Scope list_scope.
Local Open Scope Z_scope.

(* ================================================================== *)
(** * Machine integers *)

(** [int] is 32 bits wide, two's complement; arithmetic on it is written
    with its wrap-around. *)
Definition INT_MIN : Z := - 2 ^ 31.
Definition INT_MAX : Z := 2 ^ 31 - 1.

Definition wrap32 (z : Z) : Z := (z + 2 ^ 31) mod 2 ^ 32 - 2 ^ 31.

Definition in_int (z : Z) : Prop := INT_MIN <= z <= INT_MAX.

Definition int_add (a b : Z) : Z := wrap32 (a + b).
Definition int_sub (a b : Z) : Z := wrap32 (a - b).

(** [long] is 64 bits wide; [strtol] saturates at its bounds. *)
Definition LONG_MIN : Z := - 2 ^ 63.
Definition LONG_MAX : Z := 2 ^ 63 - 1.

Definition clamp_long (z : Z) : Z := Z.max LONG_MIN (Z.min LONG_MAX z).

(* ================================================================== *)
(** * The partition of the testing set (lines 172-196) *)

(** [int N = ceil((testing->num_items / 1.0) / num_procs);]

    The quotient is taken over the rationals and rounded up.  For two
    32-bit operands the correctly rounded [double] quotient has the same
    ceiling as the exact one (a non-integral quotient [k + r/p] is at
    least [1/p] away from [k], far more than half an ulp at [k]), so the
    rational is what the C expression computes whenever [num_procs > 0].
    The conversion back to [int] wraps. *)
Definition initial_N (num_items num_procs : Z) : Z :=
  wrap32 (Qceiling (inject_Z num_items / inject_Z num_procs)).

(** One pass through the body of the distribution loop, without the
    system calls: the guarded downward adjustment of [N], and the
    advance of [cur_start].  Returns the new [N] and the new
    [cur_start]; the slice written to the worker is the old [cur_start]
    with the new [N]. *)
Definition adjust_N (num_items cur_start N : Z) : Z :=
  if int_sub num_items cur_start <? N then int_sub num_items cur_start else N.

Definition advance (cur_start N : Z) : Z := int_add cur_start N.

(** The slices [(start_idx, N)] in worker order, for [n] passes. *)
Fixpoint distribute_loop (n : nat) (num_items N cur_start : Z)
  : list (Z * Z) :=
  match n with
  | O => []
  | S n' =>
      let N' := adjust_N num_items cur_start N in
      (cur_start, N') :: distribute_loop n' num_items N' (advance cur_start N')
  end.

Definition slices (num_items num_procs : Z) : list (Z * Z) :=
  distribute_loop (Z.to_nat num_procs) num_items
                  (initial_N num_items num_procs) 0.

Definition slice_sizes (sl : list (Z * Z)) : list Z := map snd sl.

Definition sum_Z (l : list Z) : Z := fold_right Z.add 0 l.

(** [k] lies in the half-open slice [[start, start + count)]. *)
Definition in_slice (k : Z) (s : Z * Z) : bool :=
  (fst s <=? k) && (k <? fst s + snd s).

(** The number of slices that contain index [k]. *)
Definition cover_count (sl : list (Z * Z)) (k : Z) : nat :=
  List.length (filter (in_slice k) sl).

(** Each slice starts where the previous one ended, the first at [from]. *)
Fixpoint contiguous_from (from : Z) (sl : list (Z * Z)) : Prop :=
  match sl with
  | [] => True
  | (s, c) :: rest => s = from /\ contiguous_from (s + c) rest
  end.

(** Where a chain of slices that starts at [from] ends. *)
Definition end_of (from : Z) (sl : list (Z * Z)) : Z :=
  from + sum_Z (slice_sizes sl).

(** The integer ceiling of [n / p], the bound of the fairness property. *)
Definition ceil_div (n p : Z) : Z := (n + p - 1) / p.

(** A slice is short when it is strictly smaller than the ceiling, and
    partial when it is short without being empty. *)
Definition short_slices (base : Z) (sl : list (Z * Z)) : list (Z * Z) :=
  filter (fun s => snd s <? base) sl.

Definition partial_slices (base : Z) (sl : list (Z * Z)) : list (Z * Z) :=
  filter (fun s => (0 <? snd s) && (snd s <? base)) sl.

Fixpoint non_increasing (l : list Z) : Prop :=
  match l with
  | [] => True
  | x :: rest =>
      match rest with
      | [] => True
      | y :: _ => y <= x /\ non_increasing rest
      end
  end.

(** What holds of [N] and [cur_start] at the head of every pass. *)
Definition loop_inv (num_items N cur_start : Z) : Prop :=
  0 <= cur_start <= num_items /\ num_items <= INT_MAX /\
  0 <= N <= INT_MAX /\ (N = 0 -> cur_start = num_items).

(** The slices [sl] cut [{0, ..., n-1}] into consecutive pieces: they
    form a chain from 0, none has a negative size, the sizes add up to
    [n], and every index below [n] lies in exactly one slice while no
    other index lies in any. *)
Definition partitions (n : Z) (sl : list (Z * Z)) : Prop :=
  contiguous_from 0 sl /\
  Forall (fun s => 0 <= snd s) sl /\
  sum_Z (slice_sizes sl) = n /\
  forall k, cover_count sl k =
            if (0 <=? k) && (k <? n) then 1%nat else 0%nat.

(** After an empty slice, every slice is empty and starts at [n]. *)
Definition empty_from_then_on (n : Z) (sl : list (Z * Z)) : Prop :=
  forall i j s s' c',
    (i < j)%nat ->
    nth_error sl i = Some (s, 0) ->
    nth_error sl j = Some (s', c') ->
    s' = n /\ c' = 0.

(* ================================================================== *)
(** * C strings and the library functions [main] calls on them *)

Definition nl : string := String (ascii_of_nat 10) EmptyString.

Definition byte_of (c : ascii) : Z := Z.of_nat (nat_of_ascii c).

Definition strlen (s : string) : nat := String.length s.

(** [strncmp s1 s2 n]: the difference of the first pair of bytes that
    differ among the first [n], the end of a string counting as byte 0;
    0 when there is none. *)
Fixpoint strncmp (s1 s2 : string) (n : nat) : Z :=
  match n with
  | O => 0
  | S n' =>
      match s1, s2 with
      | EmptyString, EmptyString => 0
      | EmptyString, String c2 _ => 0 - byte_of c2
      | String c1 _, EmptyString => byte_of c1 - 0
      | String c1 r1, String c2 r2 =>
          if Ascii.eqb c1 c2 then strncmp r1 r2 n'
          else byte_of c1 - byte_of c2
      end
  end.

(** A well-formed C string holds no NUL byte before its end. *)
Fixpoint no_nul (s : string) : bool :=
  match s with
  | EmptyString => true
  | String c r => negb (byte_of c =? 0) && no_nul r
  end.

Definition isspace (c : ascii) : bool :=
  let b := byte_of c in (b =? 32) || ((9 <=? b) && (b <=? 13)).

Definition isdigit (c : ascii) : bool :=
  let b := byte_of c in (48 <=? b) && (b <=? 57).

Fixpoint skip_space (s : string) : string :=
  match s with
  | EmptyString => EmptyString
  | String c r => if isspace c then skip_space r else s
  end.

(** The value of the longest run of decimal digits at the head of [s]. *)
Fixpoint digits_value (s : string) (acc : Z) : Z :=
  match s with
  | EmptyString => acc
  | String c r =>
      if isdigit c then digits_value r (10 * acc + (byte_of c - 48)) else acc
  end.

(** [strtol(s, NULL, 10)]: white space, an optional sign, then digits up
    to the first byte that is not one; the result saturates. *)
Definition strtol (s : string) : Z :=
  match skip_space s with
  | String "-" r => clamp_long (- digits_value r 0)
  | String "+" r => clamp_long (digits_value r 0)
  | t => clamp_long (digits_value t 0)
  end.

(** [atoi(s)] is [(int) strtol(s, NULL, 10)]. *)
Definition atoi (s : string) : Z := wrap32 (strtol s).

(** The strings the specification calls numeric: an optional sign and
    then digits only, at least one. *)
Fixpoint all_digits (s : string) : bool :=
  match s with
  | EmptyString => true
  | String c r => isdigit c && all_digits r
  end.

Definition unsigned_numeric (s : string) : bool :=
  match s with
  | EmptyString => false
  | _ => all_digits s
  end.

Definition numeric_string (s : string) : bool :=
  match s with
  | String "-" r => unsigned_numeric r
  | String "+" r => unsigned_numeric r
  | _ => unsigned_numeric s
  end.

(** The strings on which [atoi] finds no digit to convert: after the
    white space and the sign, the next byte is not a digit. *)
Definition starts_with_digit (s : string) : bool :=
  match s with
  | String c _ => isdigit c
  | EmptyString => false
  end.

Definition no_leading_digits (s : string) : bool :=
  match skip_space s with
  | String "-" r => negb (starts_with_digit r)
  | String "+" r => negb (starts_with_digit r)
  | t => negb (starts_with_digit t)
  end.

(** [printf("%d", z)]. *)
Definition string_of_int (z : Z) : string :=
  NilZero.string_of_int (Z.to_int z).

(* ================================================================== *)
(** * The world outside the parent process *)

(** Modelled from the spec: [Dataset] is declared in [knn.h], which is
    not under src/.  [main] reads one field of it, [num_items], an
    [int] that counts the items. *)
Record Dataset : Type := { num_items : Z }.

(** The two functions [d_func] can point to; they live in [knn.c]. *)
Inductive metric : Type := distance_euclidean | distance_cosine.

(** Modelled from the spec: [child_handler] is in [knn.c], which is not
    under src/.  A worker reads the two integers of its assignment from
    its pipe and writes one integer, its count of correct predictions,
    to the same pipe; it may also terminate before it has read the
    assignment, or after reading it and before reporting. *)
Inductive behaviour : Type :=
| Reports (c : Z)
| DiesBeforeReading
| DiesBeforeReporting.

(** What a worker leaves in its pipe, from what the parent wrote. *)
Definition run_worker (b : behaviour) (q : list Z) : list Z :=
  match b with
  | Reports c => skipn 2 q ++ [c]
  | DiesBeforeReading => q
  | DiesBeforeReporting => skipn 2 q
  end.

(** The system calls of the parent, by the worker index they concern. *)
Inductive syscall : Type :=
| SysPipe (i : nat)
| SysFork (i : nat)
| SysWriteStart (i : nat)
| SysWriteN (i : nat)
| SysCloseWrite (i : nat)
| SysWait (i : nat)
| SysRead (i : nat)
| SysCloseRead (i : nat).

Record world : Type := {
  load_dataset : option string -> option Dataset;
  fails : syscall -> bool;
  worker : nat -> behaviour;
  (** [num_correct] is declared without an initial value *)
  indeterminate : Z
}.

(** What the parent process does, in order. *)
Inductive event : Type :=
| Stdout (s : string)
| Stderr (s : string)
| Perror (s : string)
| LoadDataset (file : option string)
| Pipe (i : nat)
| Fork (i : nat) (K : Z) (d_func : metric)
| Write (i : nat) (v : Z)
| CloseWrite (i : nat)
| Wait
| Read (i : nat) (got : option Z)
| CloseRead (i : nat).

Definition is_stdout (e : event) : bool :=
  match e with Stdout _ => true | _ => false end.

Definition is_stderr (e : event) : bool :=
  match e with Stderr _ | Perror _ => true | _ => false end.

Definition is_fork (e : event) : bool :=
  match e with Fork _ _ _ => true | _ => false end.

Definition is_write (e : event) : bool :=
  match e with Write _ _ => true | _ => false end.

Definition is_wait (e : event) : bool :=
  match e with Wait => true | _ => false end.

Definition is_read (e : event) : bool :=
  match e with Read _ _ => true | _ => false end.

(** The lines printed on the primary output stream. *)
Fixpoint stdout_of (t : list event) : list string :=
  match t with
  | [] => []
  | Stdout s :: r => s :: stdout_of r
  | _ :: r => stdout_of r
  end.

(* ================================================================== *)
(** * Computations that emit events and may exit *)

Inductive outcome (A : Type) : Type :=
| Continue (a : A)
| Exited (status : Z).
Arguments Continue {A} a.
Arguments Exited {A} status.

Definition proc (A : Type) : Type := (list event * outcome A)%type.

Definition ret {A : Type} (a : A) : proc A := ([], Continue a).

Definition bind {A B : Type} (m : proc A) (f : A -> proc B) : proc B :=
  match m with
  | (t, Continue a) => let (t', r) := f a in (t ++ t', r)
  | (t, Exited s) => (t, Exited s)
  end.

Definition emit (e : event) : proc unit := ([e], Continue tt).

Definition exit {A : Type} (status : Z) : proc A := ([], Exited status).

Notation "x <- m ;; k" := (bind m (fun x => k))
  (at level 61, m at next level, right associativity).
Notation "m ;; k" := (bind m (fun _ => k))
  (at level 61, right associativity).

Definition when (b : bool) (m : proc unit) : proc unit :=
  if b then m else ret tt.

(** A checked system call: on failure [perror] and [exit(1)]. *)
Definition checked (w : world) (c : syscall) (e : event) (msg : string)
  : proc unit :=
  if fails w c then emit (Perror msg) ;; exit 1 else emit e.

(* ================================================================== *)
(** * Command-line options (lines 53-78) *)

Record options : Type := {
  K : Z;
  dist_metric : string;
  num_procs : Z;
  verbose : bool
}.

(** The initial values of the four variables. *)
Definition defaults : options :=
  {| K := 1; dist_metric := "euclidean"; num_procs := 1; verbose := false |}.

Definition set_verbose (o : options) : options :=
  {| K := K o; dist_metric := dist_metric o;
     num_procs := num_procs o; verbose := true |}.

(** The three cases of the [switch] that read [optarg]. *)
Definition set_option (c : ascii) (optarg : string) (o : options) : options :=
  if Ascii.eqb c "K" then
    {| K := atoi optarg; dist_metric := dist_metric o;
       num_procs := num_procs o; verbose := verbose o |}
  else if Ascii.eqb c "d" then
    {| K := K o; dist_metric := optarg;
       num_procs := num_procs o; verbose := verbose o |}
  else
    {| K := K o; dist_metric := dist_metric o;
       num_procs := atoi optarg; verbose := verbose o |}.

(** The option letters of ["vK:d:p:"] that take an argument. *)
Definition takes_argument (c : ascii) : bool :=
  Ascii.eqb c "K" || Ascii.eqb c "d" || Ascii.eqb c "p".

Definition usage (name : string) : proc unit :=
  emit (Stderr (String.append "Usage: " (String.append name
    (String.append
       " -v -K <num> -d <distance metric> -p <num_procs> training_list testing_list"
       nl)))).

(** How the scan of one argument [-xyz...] ends: all its letters were
    flags or the last one took the rest of the argument; the last letter
    wants the next argument; or a letter is not an option. *)
Inductive cluster_end : Type :=
| ClusterDone (o : options)
| ClusterWantsNext (c : ascii) (o : options)
| ClusterInvalid (c : ascii).

Fixpoint scan_cluster (cs : string) (o : options) : cluster_end :=
  match cs with
  | EmptyString => ClusterDone o
  | String c rest =>
      if Ascii.eqb c "v" then scan_cluster rest (set_verbose o)
      else if takes_argument c then
        match rest with
        | EmptyString => ClusterWantsNext c o
        | _ => ClusterDone (set_option c rest o)
        end
      else ClusterInvalid c
  end.

(** What [getopt] prints before it returns ['?'], followed by the
    [default] case of the [switch]. *)
Definition getopt_fails {A : Type} (name what : string) (c : ascii)
  : proc A :=
  emit (Stderr (String.append name
          (String.append what (String c (String.append "'" nl))))) ;;
  usage name ;;
  exit 1.

Definition requires_argument : string := ": option requires an argument -- '".

Definition invalid_option : string := ": invalid option -- '".

(** The [while ((opt = getopt(argc, argv, "vK:d:p:")) != -1)] loop over
    the arguments after [argv[0]].  It returns the options and the
    operands, that is [argv] from [optind] on.  The scan follows POSIX:
    it stops at the first argument that is not an option, at ["-"] and
    after ["--"]; this is what every [getopt] does when the options come
    first, as the header comment of [main] requires.  A letter that is
    not an option, or an option without its argument, makes [getopt]
    print its own line and return ['?'], the [default] case. *)
Fixpoint getopt_loop (name : string) (args : list string) (o : options)
  : proc (options * list string) :=
  match args with
  | [] => ret (o, [])
  | a :: rest =>
      match a with
      | String "-" EmptyString => ret (o, args)
      | String "-" (String "-" EmptyString) => ret (o, rest)
      | String "-" cs =>
          match scan_cluster cs o with
          | ClusterDone o' => getopt_loop name rest o'
          | ClusterWantsNext c o' =>
              match rest with
              | optarg :: rest' =>
                  getopt_loop name rest' (set_option c optarg o')
              | [] => getopt_fails name requires_argument c
              end
          | ClusterInvalid c => getopt_fails name invalid_option c
          end
      | _ => ret (o, args)
      end
  end.

(** The arguments that [getopt] reads as options, and their letters. *)
Definition is_option_arg (a : string) : bool :=
  match a with
  | String "-" (String _ _) => true
  | _ => false
  end.

Definition option_letters (a : string) : string :=
  match a with
  | String _ cs => cs
  | EmptyString => EmptyString
  end.

(* ================================================================== *)
(** * The distance metric (lines 99-111) *)

Definition select_metric (dist_metric : string) : proc metric :=
  if strncmp dist_metric "euclidean" (strlen dist_metric) =? 0 then
    ret distance_euclidean
  else if strncmp dist_metric "cosine" (strlen dist_metric) =? 0 then
    ret distance_cosine
  else
    emit (Perror "Invalid distance metric") ;;
    exit 1.

(** [s] is an initial substring of [t]. *)
Fixpoint is_prefix (s t : string) : bool :=
  match s, t with
  | EmptyString, _ => true
  | String c r, String c' r' => Ascii.eqb c c' && is_prefix r r'
  | String _ _, EmptyString => false
  end.

(* ================================================================== *)
(** * Loading (lines 113-128) *)

(** [argv[optind]] can be the null pointer that ends [argv]; [%s]
    prints it as [(null)]. *)
Definition shown (file : option string) : string :=
  match file with
  | Some f => f
  | None => "(null)"
  end.

Definition load (w : world) (file : option string) : proc Dataset :=
  emit (LoadDataset file) ;;
  match load_dataset w file with
  | Some d => ret d
  | None =>
      emit (Stderr (String.append "The data set in "
              (String.append (shown file)
                 (String.append " could not be loaded" nl)))) ;;
      exit 1
  end.

(* ================================================================== *)
(** * Pipes and children (lines 130-166) *)

(** What is buffered in the pipe of each worker. *)
Definition pipes : Type := nat -> list Z.

Definition no_data : pipes := fun _ => [].

Definition pipe_write (fds : pipes) (i : nat) (v : Z) : pipes :=
  fun j => if Nat.eqb j i then fds j ++ [v] else fds j.

(** Once every child has terminated. *)
Definition after_children (w : world) (fds : pipes) : pipes :=
  fun i => run_worker (worker w i) (fds i).

(** The child's side of [fork] (lines 151-165): [child_handler], the
    two [close], and [exit(0)].  What the child does to its pipe is
    [run_worker].  When it leaves through [exit], the text that was
    waiting in the buffer of the output stream at the time of the
    [fork], of which the child has a copy, is written to the stream.  A
    child that is killed writes nothing. *)
Definition leaves (b : behaviour) : bool :=
  match b with
  | Reports _ => true
  | DiesBeforeReading | DiesBeforeReporting => false
  end.

Definition child (b : behaviour) (buffered : list string) : list string :=
  if leaves b then buffered else [].

(** The parent's side of the loop that creates pipe [i] and forks child
    [i], for [n] more children.  The child's side is [child] and
    [run_worker]. *)
Fixpoint spawn_loop (w : world) (K : Z) (d_func : metric) (n i : nat)
  : proc unit :=
  match n with
  | O => ret tt
  | S n' =>
      checked w (SysPipe i) (Pipe i) "Failed pipe" ;;
      checked w (SysFork i) (Fork i K d_func) "Failed forking child process" ;;
      spawn_loop w K d_func n' (S i)
  end.

(* ================================================================== *)
(** * Distribution (lines 169-196) *)

Fixpoint distribute (w : world) (num_items : Z) (n i : nat)
  (N cur_start : Z) (fds : pipes) : proc pipes :=
  match n with
  | O => ret fds
  | S n' =>
      let N' := adjust_N num_items cur_start N in
      checked w (SysWriteStart i) (Write i cur_start)
              "Failed writing starting index to child" ;;
      checked w (SysWriteN i) (Write i N') "Failed writing N to child" ;;
      checked w (SysCloseWrite i) (CloseWrite i) "Closing parent write pipe" ;;
      distribute w num_items n' (S i) N' (advance cur_start N')
                 (pipe_write (pipe_write fds i cur_start) i N')
  end.

(* ================================================================== *)
(** * Collection (lines 200-226) *)

Fixpoint wait_loop (w : world) (n i : nat) : proc unit :=
  match n with
  | O => ret tt
  | S n' =>
      checked w (SysWait i) Wait "failed wait call" ;;
      wait_loop w n' (S i)
  end.

(** [read] stores an integer into [num_correct] when the pipe holds one,
    and returns 0 and stores nothing at the end of the data. *)
Definition read_int (fds : pipes) (i : nat) (num_correct : Z)
  : option Z * Z :=
  match fds i with
  | v :: _ => (Some v, v)
  | [] => (None, num_correct)
  end.

Fixpoint collect (w : world) (fds : pipes) (n i : nat)
  (total_correct num_correct : Z) : proc Z :=
  match n with
  | O => ret total_correct
  | S n' =>
      if fails w (SysRead i) then
        emit (Perror "Failed reading result from child") ;;
        exit 1
      else
        let (got, num_correct') := read_int fds i num_correct in
        emit (Read i got) ;;
        let total_correct' := int_add total_correct num_correct' in
        checked w (SysCloseRead i) (CloseRead i) "Closing parent read pipe" ;;
        collect w fds n' (S i) total_correct' num_correct'
  end.

(* ================================================================== *)
(** * [main] *)

(** A run whose behaviour the C standard leaves undefined ends here.
    The status is not one that a process ends with: it only marks such
    a run, and nothing is said of what the program does from there. *)
Definition undefined_status : Z := -1.

Definition undefined {A : Type} : proc A := ([], Exited undefined_status).

(** [int fds[num_procs][2];] (line 136).  The array has [num_procs]
    rows: with a negative [num_procs] the behaviour is undefined.  A
    size of zero, which GCC accepts, leaves an array that is never
    indexed. *)
Definition declare_fds (num_procs : Z) : proc unit :=
  if num_procs <? 0 then undefined else ret tt.

(** From the creation of the children to [return 0].  The four loops
    run [num_procs] times, and not at all when [num_procs] is zero;
    [N] is then computed and never used. *)
Definition run_workers (w : world) (o : options) (d_func : metric)
  (testing : Dataset) : proc Z :=
  let P := Z.to_nat (num_procs o) in
  when (verbose o) (emit (Stdout (String.append "- Creating children ..." nl))) ;;
  declare_fds (num_procs o) ;;
  spawn_loop w (K o) d_func P 0 ;;
  fds <- distribute w (num_items testing) P 0
           (initial_N (num_items testing) (num_procs o)) 0 no_data ;;
  when (verbose o) (emit (Stdout (String.append "- Waiting for children..." nl))) ;;
  wait_loop w P 0 ;;
  total_correct <- collect w (after_children w fds) P 0 0 (indeterminate w) ;;
  when (verbose o)
    (emit (Stdout (String.append
                     (String.append "Number of correct predictions: "
                                    (string_of_int total_correct)) nl))) ;;
  emit (Stdout (String.append (string_of_int total_correct) nl)) ;;
  ret 0.

(** From the loading of the two files on. *)
Definition run_metric (w : world) (o : options) (d_func : metric)
  (training_file testing_file : option string) : proc Z :=
  when (verbose o) (emit (Stderr (String.append "- Loading datasets..." nl))) ;;
  training <- load w training_file ;;
  testing <- load w testing_file ;;
  run_workers w o d_func testing.

(** From the selection of the metric on. *)
Definition run_files (w : world) (o : options)
  (training_file testing_file : option string) : proc Z :=
  d_func <- select_metric (dist_metric o) ;;
  run_metric w o d_func training_file testing_file.

(** After the options: the check of [optind] against [argc], and the
    two file names taken from [argv]. *)
Definition run_operands (w : world) (o : options) (operands : list string)
  : proc Z :=
  match operands with
  | [] =>
      emit (Stderr
              (String.append
                 "Expecting training images file and test images file" nl)) ;;
      exit 1
  | training_file :: rest =>
      run_files w o (Some training_file) (hd_error rest)
  end.

Definition main_body (argv : list string) (w : world) : proc Z :=
  let name := hd "" argv in
  parsed <- getopt_loop name (tl argv) defaults ;;
  run_operands w (fst parsed) (snd parsed).

(** The trace of a process and its exit status, whether it returned
    from [main] or called [exit]; an undefined run has
    [undefined_status] in the place of a status. *)
Definition finish (m : proc Z) : list event * Z :=
  match m with
  | (t, Continue status) => (t, status)
  | (t, Exited status) => (t, status)
  end.

Definition main (argv : list string) (w : world) : list event * Z :=
  finish (main_body argv w).

Definition trace (argv : list string) (w : world) : list event :=
  fst (main argv w).

Definition status (argv : list string) (w : world) : Z :=
  snd (main argv w).

(* ================================================================== *)
(** * Runs in which no system call fails *)

(** The events of the three loops when every call succeeds. *)
Fixpoint spawn_events (K : Z) (d_func : metric) (n i : nat) : list event :=
  match n with
  | O => []
  | S n' => Pipe i :: Fork i K d_func :: spawn_events K d_func n' (S i)
  end.

Fixpoint dispatch_events (i : nat) (sl : list (Z * Z)) : list event :=
  match sl with
  | [] => []
  | (s, c) :: rest =>
      Write i s :: Write i c :: CloseWrite i :: dispatch_events (S i) rest
  end.

Fixpoint dispatch_pipes (i : nat) (sl : list (Z * Z)) (fds : pipes) : pipes :=
  match sl with
  | [] => fds
  | (s, c) :: rest =>
      dispatch_pipes (S i) rest (pipe_write (pipe_write fds i s) i c)
  end.

Fixpoint collect_events (fds : pipes) (n i : nat) (num_correct : Z)
  : list event :=
  match n with
  | O => []
  | S n' =>
      Read i (fst (read_int fds i num_correct)) :: CloseRead i ::
      collect_events fds n' (S i) (snd (read_int fds i num_correct))
  end.

Fixpoint collect_total (fds : pipes) (n i : nat)
  (total_correct num_correct : Z) : Z :=
  match n with
  | O => total_correct
  | S n' =>
      collect_total fds n' (S i)
        (int_add total_correct (snd (read_int fds i num_correct)))
        (snd (read_int fds i num_correct))
  end.

Definition said (b : bool) (s : string) : list event :=
  if b then [Stdout (String.append s nl)] else [].

(** The last two [printf]. *)
Definition report (o : options) (total_correct : Z) : list event :=
  said (verbose o)
       (String.append "Number of correct predictions: "
                      (string_of_int total_correct)) ++
  [Stdout (String.append (string_of_int total_correct) nl)].

(** What the pipes hold when the parent reads them. *)
Definition results (w : world) (o : options) (testing : Dataset) : pipes :=
  after_children w
    (dispatch_pipes 0 (slices (num_items testing) (num_procs o)) no_data).

Definition total_of (w : world) (o : options) (testing : Dataset) : Z :=
  collect_total (results w o testing) (Z.to_nat (num_procs o)) 0 0
                (indeterminate w).

(** Everything the parent does before it prints the total. *)
Definition before_report (w : world) (o : options) (d_func : metric)
  (testing : Dataset) : list event :=
  let P := Z.to_nat (num_procs o) in
  said (verbose o) "- Creating children ..." ++
  spawn_events (K o) d_func P 0 ++
  dispatch_events 0 (slices (num_items testing) (num_procs o)) ++
  said (verbose o) "- Waiting for children..." ++
  repeat Wait P ++
  collect_events (results w o testing) P 0 (indeterminate w).

Definition with_K (v : Z) : options :=
  {| K := v; dist_metric := "euclidean"; num_procs := 1; verbose := false |}.

Definition with_metric (s : string) : options :=
  {| K := 1; dist_metric := s; num_procs := 1; verbose := false |}.

Definition with_procs (v : Z) : options :=
  {| K := 1; dist_metric := "euclidean"; num_procs := v; verbose := false |}.

(** The sum of the counts that workers [i], ..., [i + n - 1] report. *)
Definition counts_from (count : nat -> Z) (i n : nat) : list Z :=
  map count (seq i n).

(** [m] goes through with the events [t] and the value [a], unless a
    system call fails, and then it exits with status 1. *)
Definition yields {A : Type} (w : world) (m : proc A) (t : list event)
  (a : A) : Prop :=
  m = (t, Continue a) \/
  ((exists t', m = (t', Exited 1)) /\ exists c, fails w c = true).

(** What [main] does before it creates the children. *)
Definition loading (o : options) (training_file testing_file : option string)
  : list event :=
  (if verbose o then [Stderr (String.append "- Loading datasets..." nl)]
   else []) ++
  [LoadDataset training_file; LoadDataset testing_file].

(** The run parses its command line into the options [o], selects
    [d_func], and loads both datasets. *)
Definition loaded (argv : list string) (w : world) (o : options)
  (d_func : metric) (training_file : string) (testing_file : option string)
  (training testing : Dataset) : Prop :=
  exists rest,
    getopt_loop (hd "" argv) (tl argv) defaults
    = ret (o, training_file :: rest) /\
    testing_file = hd_error rest /\
    select_metric (dist_metric o) = ret d_func /\
    load_dataset w (Some training_file) = Some training /\
    load_dataset w testing_file = Some testing.

(** The number of children. *)
Definition workers (o : options) : nat := Z.to_nat (num_procs o).

(** The [wait] and [read] calls among the events [t]. *)
Definition waits_in (t : list event) : nat := List.length (filter is_wait t).

Definition reads_in (t : list event) : list event := filter is_read t.

Definition forks_in (t : list event) : list event := filter is_fork t.

Definition writes_in (t : list event) : list event := filter is_write t.

(** The [write] calls that hand out the slices [sl], from worker [i] on. *)
Fixpoint slice_writes (i : nat) (sl : list (Z * Z)) : list event :=
  match sl with
  | [] => []
  | (s, c) :: rest => Write i s :: Write i c :: slice_writes (S i) rest
  end.

(** The text of the three lines that [-v] adds to the output stream. *)
Definition creating_line : string :=
  String.append "- Creating children ..." nl.

Definition waiting_line : string :=
  String.append "- Waiting for children..." nl.

Definition predictions_line (total_correct : Z) : string :=
  String.append
    (String.append "Number of correct predictions: "
                   (string_of_int total_correct)) nl.

Definition total_line (total_correct : Z) : string :=
  String.append (string_of_int total_correct) nl.

(* ================================================================== *)
(** * Further vocabulary *)

(** What the children write to the output stream on a run with the
    events [t] of the parent, when the text that the parent prints
    waits in the buffer: each child that leaves through [exit] writes
    the text printed before it was forked. *)
Fixpoint children_output (w : world) (buffered : list string)
  (t : list event) : list string :=
  match t with
  | [] => []
  | Stdout s :: r => children_output w (buffered ++ [s]) r
  | Fork i _ _ :: r =>
      child (worker w i) buffered ++ children_output w buffered r
  | _ :: r => children_output w buffered r
  end.

(** The lines that reach the output stream on a run in which the parent
    ends after all its children.  On a terminal the stream is line
    buffered: every line the parent prints is written at once, and no
    text waits in the buffer when a child is forked.  Otherwise the
    text waits in the buffer until the parent ends, after the children
    have written their copies. *)
Definition stream (terminal : bool) (w : world) (t : list event)
  : list string :=
  if terminal then stdout_of t else children_output w [] t ++ stdout_of t.

(** How many of the first [n] children leave through [exit]. *)
Definition leaving (w : world) (n : nat) : nat :=
  List.length (filter (fun i => leaves (worker w i)) (seq 0 n)).

(** Every option loop that returns has a worker count that is not
    negative. *)
Definition workers_not_negative (argv : list string) : Prop :=
  forall o operands,
    getopt_loop (hd "" argv) (tl argv) defaults = ret (o, operands) ->
    0 <= num_procs o.

(** The slice of worker [i] in closed form: with [base] items to a
    worker, it starts at [i * base], or at [n] once that is beyond the
    end, and takes [base] items, or what is left. *)
Definition slice_at (n base : Z) (i : nat) : Z * Z :=
  let start := Z.min n (Z.of_nat i * base) in
  (start, Z.min base (n - start)).

(** The lines that [main], [usage] and [getopt] write to the error
    stream. *)
Definition usage_line (name : string) : string :=
  String.append "Usage: " (String.append name
    (String.append
       " -v -K <num> -d <distance metric> -p <num_procs> training_list testing_list"
       nl)).

Definition getopt_line (name what : string) (c : ascii) : string :=
  String.append name
    (String.append what (String c (String.append "'" nl))).

Definition expecting_line : string :=
  String.append "Expecting training images file and test images file" nl.

Definition not_loaded_line (file : option string) : string :=
  String.append "The data set in "
    (String.append (shown file) (String.append " could not be loaded" nl)).

Definition loading_line : string :=
  String.append "- Loading datasets..." nl.

(** [m] stops with [perror] and status 1 after it has done a beginning
    of [t]. *)
Definition stops_in {A : Type} (m : proc A) (t : list event) : Prop :=
  exists t1 t2 msg, m = (t1 ++ [Perror msg], Exited 1) /\ t = t1 ++ t2.

(** [m] does [t], then [extra], and returns [a]; or it stops in [t]. *)
Definition runs {A : Type} (m : proc A) (t extra : list event) (a : A)
  : Prop :=
  m = (t ++ extra, Continue a) \/ stops_in m t.

(** The output stream holds nothing but lines that [-v] adds while the
    children are created and awaited: no total. *)
Definition no_total (t : list event) : Prop :=
  forall s, In s (stdout_of t) -> s = creating_line \/ s = waiting_line.

(** An option with its argument, as two elements of [argv]. *)
Definition option_pair (c : ascii) (optarg : string) : list string :=
  [String "-" (String c EmptyString); optarg].

(* ================================================================== *)
(** * Sample worlds *)

(** A training set of three items and a testing set of five; every
    system call succeeds. *)
Definition sample_files (file : option string) : option Dataset :=
  match file with
  | Some "train" => Some {| num_items := 3 |}
  | Some "test" => Some {| num_items := 5 |}
  | _ => None
  end.

(** Both workers report: two and one correct predictions. *)
Definition sample_world : world :=
  {| load_dataset := sample_files;
     fails := fun _ => false;
     worker := fun i => match i with O => Reports 2 | _ => Reports 1 end;
     indeterminate := 0 |}.

Definition sample_argv : list string :=
  ["classifier"; "-p"; "2"; "train"; "test"].

Definition sample_count (i : nat) : Z :=
  match i with O => 2 | _ => 1 end.

Definition verbose_argv : list string := ["classifier"; "-v"; "train"; "test"].

Definition verbose_options : options :=
  {| K := 1; dist_metric := "euclidean"; num_procs := 1; verbose := true |}.

Definition oversized_argv : list string :=
  ["classifier"; "-K"; "5"; "train"; "test"].

Definition one_file_argv : list string := ["classifier"; "train.bin"].

(** The first worker reports three correct predictions; every other
    worker reads its assignment and is killed before it reports. *)
Definition crash_world : world :=
  {| load_dataset := sample_files;
     fails := fun _ => false;
     worker := fun i =>
       match i with O => Reports 3 | _ => DiesBeforeReporting end;
     indeterminate := 0 |}.

(** What is left of a trace without the lines that [printf] and
    [fprintf] write: the calls, and the [perror] that ends a run. *)
Definition is_line (e : event) : bool :=
  match e with
  | Stdout _ | Stderr _ => true
  | _ => false
  end.

Definition calls_of (t : list event) : list event :=
  filter (fun e => negb (is_line e)) t.

(** The flag of [-v] set in what the option loop returns. *)
Definition verbosely (m : proc (options * list string))
  : proc (options * list string) :=
  match m with
  | (t, Continue (o, operands)) => (t, Continue (set_verbose o, operands))
  | (t, Exited s) => (t, Exited s)
  end.

Definition verbosely_end (e : cluster_end) : cluster_end :=
  match e with
  | ClusterDone o => ClusterDone (set_verbose o)
  | ClusterWantsNext c o => ClusterWantsNext c (set_verbose o)
  | ClusterInvalid c => ClusterInvalid c
  end.

(** The second [fork] fails. *)
Definition second_fork_fails (c : syscall) : bool :=
  match c with
  | SysFork 1 => true
  | _ => false
  end.

Definition fork_world : world :=
  {| load_dataset := sample_files;
     fails := second_fork_fails;
     worker := fun _ => Reports 0;
     indeterminate := 0 |}.

(** The second worker terminates before it reads its assignment. *)
Definition unread_world : world :=
  {| load_dataset := sample_files;
     fails := fun _ => false;
     worker := fun i =>
       match i with O => Reports 2 | _ => DiesBeforeReading end;
     indeterminate := 0 |}.

(** No file can be loaded. *)
Definition empty_world : world :=
  {| load_dataset := fun _ => None;
     fails := fun _ => false;
     worker := fun _ => Reports 0;
     indeterminate := 0 |}.

(* ================================================================== *)
(** * Machine integers: facts *)

Lemma wrap32_small (z : Z) : in_int z -> wrap32 z = z.
Proof.
  unfold in_int, INT_MIN, INT_MAX, wrap32. intros H.
  rewrite Z.mod_small; lia.
Qed.

Lemma Qceiling_quotient (n p : Z) :
  0 < p -> Qceiling (inject_Z n / inject_Z p) = ceil_div n p.
Proof.
  intros Hp. destruct p as [|p|p]; try lia.
  unfold ceil_div, Qceiling, Qfloor, Qdiv, Qinv, Qmult, Qopp, inject_Z.
  cbn [Qnum Qden]. rewrite Z.mul_1_r, Pos.mul_1_l.
  set (d := Z.pos p) in *.
  assert (Hd : 0 < d) by (unfold d; lia).
  pose proof (Z.div_mod (- n) d ltac:(lia)) as E1.
  pose proof (Z.mod_pos_bound (- n) d Hd) as B1.
  apply Z.div_unique with (r := d - 1 - (- n) mod d); [left|]; lia.
Qed.

Lemma ceil_div_bounds (n p : Z) :
  0 <= n -> 1 <= p ->
  0 <= ceil_div n p <= n /\ n <= p * ceil_div n p /\
  (ceil_div n p = 0 -> n = 0).
Proof.
  intros Hn Hp. unfold ceil_div.
  pose proof (Z.div_mod (n + p - 1) p ltac:(lia)) as E.
  pose proof (Z.mod_pos_bound (n + p - 1) p ltac:(lia)) as B.
  set (q := (n + p - 1) / p) in *.
  set (r := (n + p - 1) mod p) in *.
  assert (Hq0 : 0 <= q) by (apply Z.div_pos; lia).
  assert (Hqn : q <= n).
  { destruct (Z.eq_dec q 0) as [Hq|Hq]; [lia|].
    assert (1 <= q) by lia. nia. }
  assert (Hnq : n <= p * q) by nia.
  repeat split; try assumption.
  intros Hq. rewrite Hq in E. lia.
Qed.

Lemma initial_N_ceil (n p : Z) :
  0 <= n <= INT_MAX -> 1 <= p -> initial_N n p = ceil_div n p.
Proof.
  intros Hn Hp. unfold initial_N.
  rewrite Qceiling_quotient by lia.
  pose proof (ceil_div_bounds n p ltac:(lia) Hp) as [B _].
  apply wrap32_small. unfold in_int, INT_MIN, INT_MAX in *. lia.
Qed.

(* ================================================================== *)
(** * The partition: the loop, one pass at a time *)

Section Partition.

Variable n : Z.

Lemma adjust_N_min (N cur : Z) :
  loop_inv n N cur -> adjust_N n cur N = Z.min N (n - cur).
Proof.
  unfold loop_inv, adjust_N, int_sub, INT_MAX. intros (Hc & Hn & HN & _).
  rewrite wrap32_small by (unfold in_int, INT_MIN, INT_MAX; lia).
  destruct (Z.ltb_spec (n - cur) N); lia.
Qed.

(** A pass that finds a whole slice left hands it out. *)
Lemma distribute_loop_full (k : nat) (N cur : Z) :
  loop_inv n N cur -> N <= n - cur ->
  distribute_loop (S k) n N cur = (cur, N) :: distribute_loop k n N (cur + N)
  /\ loop_inv n N (cur + N).
Proof.
  intros Hinv Hle. cbn [distribute_loop].
  rewrite (adjust_N_min _ _ Hinv), Z.min_l by lia.
  unfold advance, int_add. unfold loop_inv, INT_MAX in *.
  rewrite wrap32_small by (unfold in_int, INT_MIN, INT_MAX; lia).
  split; [reflexivity | lia].
Qed.

(** Once [cur_start] has reached the end, every slice is empty. *)
Lemma distribute_loop_exhausted (k : nat) (N : Z) :
  0 <= n <= INT_MAX -> 0 <= N <= INT_MAX ->
  distribute_loop k n N n = repeat (n, 0) k.
Proof.
  intros Hn. revert N. induction k as [|k IH]; intros N HN; [reflexivity|].
  cbn [distribute_loop repeat].
  assert (Ha : adjust_N n n N = 0).
  { unfold adjust_N, int_sub. rewrite Z.sub_diag.
    change (wrap32 0) with 0. destruct (Z.ltb_spec 0 N); lia. }
  rewrite Ha. unfold advance, int_add. rewrite Z.add_0_r.
  rewrite wrap32_small by (unfold in_int, INT_MIN, INT_MAX in *; lia).
  rewrite IH by (unfold INT_MAX; lia). reflexivity.
Qed.

(** A pass that finds less than a whole slice hands out what is left,
    and nothing is left for the passes after it. *)
Lemma distribute_loop_rest (k : nat) (N cur : Z) :
  loop_inv n N cur -> n - cur < N ->
  distribute_loop (S k) n N cur = (cur, n - cur) :: repeat (n, 0) k.
Proof.
  intros Hinv Hlt. cbn [distribute_loop].
  rewrite (adjust_N_min _ _ Hinv), Z.min_r by lia.
  unfold advance, int_add. unfold loop_inv, INT_MAX in *.
  replace (cur + (n - cur)) with n by lia.
  rewrite wrap32_small by (unfold in_int, INT_MIN, INT_MAX; lia).
  rewrite distribute_loop_exhausted by (unfold INT_MAX; lia).
  reflexivity.
Qed.

Lemma distribute_loop_length (k : nat) (N cur : Z) :
  List.length (distribute_loop k n N cur) = k.
Proof.
  revert N cur. induction k as [|k IH]; intros N cur; [reflexivity|].
  cbn [distribute_loop List.length]. now rewrite IH.
Qed.

End Partition.

(** The induction the facts about the loop share: a property of the
    slices follows from its three cases. *)
Lemma distribute_loop_ind (n : Z)
  (Q : nat -> Z -> Z -> list (Z * Z) -> Prop) :
  (forall N cur, loop_inv n N cur -> Q O N cur []) ->
  (forall k N cur,
      let sl := distribute_loop k n N (cur + N) in
      loop_inv n N cur -> N <= n - cur ->
      loop_inv n N (cur + N) ->
      Q k N (cur + N) sl -> Q (S k) N cur ((cur, N) :: sl)) ->
  (forall k N cur,
      loop_inv n N cur -> n - cur < N ->
      Q (S k) N cur ((cur, n - cur) :: repeat (n, 0) k)) ->
  forall k N cur, loop_inv n N cur -> Q k N cur (distribute_loop k n N cur).
Proof.
  intros H0 Hfull Hrest. induction k as [|k IH]; intros N cur Hinv.
  - apply H0, Hinv.
  - destruct (Z.le_gt_cases N (n - cur)) as [Hle|Hlt].
    + destruct (distribute_loop_full n k N cur Hinv Hle) as [-> Hinv'].
      apply Hfull; auto.
    + rewrite (distribute_loop_rest n k N cur Hinv) by lia.
      apply Hrest; auto; lia.
Qed.

Lemma loop_inv_initial (n p : Z) :
  0 <= n <= INT_MAX -> 1 <= p -> loop_inv n (initial_N n p) 0.
Proof.
  intros Hn Hp. rewrite initial_N_ceil by assumption.
  pose proof (ceil_div_bounds n p ltac:(lia) Hp) as (B & _ & Z0).
  unfold loop_inv. repeat split; lia.
Qed.

(* ================================================================== *)
(** * Chains of slices *)

Lemma sum_sizes_cons (s : Z * Z) (sl : list (Z * Z)) :
  sum_Z (slice_sizes (s :: sl)) = snd s + sum_Z (slice_sizes sl).
Proof. reflexivity. Qed.

Lemma sum_sizes_nonneg (sl : list (Z * Z)) :
  Forall (fun s => 0 <= snd s) sl -> 0 <= sum_Z (slice_sizes sl).
Proof.
  induction 1 as [|s sl Hs _ IH]; [cbn; lia|]. rewrite sum_sizes_cons. lia.
Qed.

(** In a chain of slices of non-negative sizes, an index lies in exactly
    one slice when it is between the two ends, and in none otherwise. *)
Lemma cover_count_chain (sl : list (Z * Z)) :
  forall from,
    contiguous_from from sl -> Forall (fun s => 0 <= snd s) sl ->
    forall k, cover_count sl k =
              if (from <=? k) && (k <? end_of from sl) then 1%nat else 0%nat.
Proof.
  induction sl as [|[s c] sl IH]; intros from Hch Hpos k.
  - unfold cover_count, end_of. cbn. rewrite Z.add_0_r.
    destruct (Z.leb_spec from k), (Z.ltb_spec k from); cbn; solve [reflexivity | lia].
  - destruct Hch as [-> Hch]. inversion Hpos as [|? ? Hc Hpos']; subst.
    cbn in Hc. specialize (IH (from + c) Hch Hpos' k).
    pose proof (sum_sizes_nonneg sl Hpos') as Hsum.
    unfold cover_count, end_of in *. rewrite sum_sizes_cons.
    cbn [filter snd]. unfold in_slice at 1. cbn [fst snd].
    destruct (Z.leb_spec from k), (Z.ltb_spec k (from + c)); cbn [andb List.length].
    + rewrite IH.
      destruct (Z.leb_spec (from + c) k); [lia|]. cbn [andb].
      destruct (Z.ltb_spec k (from + (c + sum_Z (slice_sizes sl)))); [reflexivity | lia].
    + rewrite IH.
      destruct (Z.leb_spec (from + c) k); [|lia]. cbn [andb].
      destruct (Z.ltb_spec k (from + c + sum_Z (slice_sizes sl))),
               (Z.ltb_spec k (from + (c + sum_Z (slice_sizes sl)))); solve [reflexivity | lia].
    + rewrite IH.
      destruct (Z.leb_spec (from + c) k); [lia|]. reflexivity.
    + rewrite IH.
      destruct (Z.leb_spec (from + c) k); [lia|]. reflexivity.
Qed.

Lemma sum_sizes_empty (n : Z) (k : nat) :
  sum_Z (slice_sizes (repeat (n, 0) k)) = 0.
Proof.
  induction k as [|k IH]; [reflexivity|].
  cbn [repeat]. rewrite sum_sizes_cons, IH. reflexivity.
Qed.

Lemma contiguous_empty (n : Z) (k : nat) :
  contiguous_from n (repeat (n, 0) k).
Proof.
  induction k as [|k IH]; cbn; [exact I|].
  split; [reflexivity|]. now rewrite Z.add_0_r.
Qed.

Lemma Forall_repeat {A : Type} (P : A -> Prop) (x : A) (k : nat) :
  P x -> Forall P (repeat x k).
Proof.
  intros Hx. apply Forall_forall. intros y Hy.
  now rewrite (repeat_spec _ _ _ Hy).
Qed.

Lemma nth_error_repeat_some {A : Type} (x y : A) (k j : nat) :
  nth_error (repeat x k) j = Some y -> y = x.
Proof.
  intros H. apply nth_error_In in H. eapply repeat_spec; eauto.
Qed.

Lemma partial_slices_empty (base n : Z) (k : nat) :
  partial_slices base (repeat (n, 0) k) = [].
Proof.
  induction k as [|k IH]; cbn; [reflexivity|]. exact IH.
Qed.

Lemma non_increasing_zeros (c n : Z) (k : nat) :
  0 <= c -> non_increasing (c :: slice_sizes (repeat (n, 0) k)).
Proof.
  revert c. induction k as [|k IH]; intros c Hc; cbn; [exact I|].
  split; [assumption|]. apply IH. lia.
Qed.

Lemma non_increasing_cons (x : Z) (l : list Z) :
  Forall (fun y => y <= x) l -> non_increasing l -> non_increasing (x :: l).
Proof.
  intros Hall Hl. destruct l as [|y l]; [exact I|].
  split; [now inversion Hall | exact Hl].
Qed.

(* ================================================================== *)
(** * The partition: what the slices are *)

Section Slices.

Variable n : Z.

Lemma distribute_loop_contiguous (k : nat) (N cur : Z) :
  loop_inv n N cur -> contiguous_from cur (distribute_loop k n N cur).
Proof.
  apply (distribute_loop_ind n (fun _ _ cur sl => contiguous_from cur sl)).
  - intros; exact I.
  - intros; cbn; auto.
  - intros k' N' cur' _ _. cbn. split; [reflexivity|].
    replace (cur' + (n - cur')) with n by lia. apply contiguous_empty.
Qed.

Lemma distribute_loop_sizes (k : nat) (N cur : Z) :
  loop_inv n N cur ->
  Forall (fun s => 0 <= snd s <= N) (distribute_loop k n N cur).
Proof.
  apply (distribute_loop_ind n
           (fun _ N _ sl => Forall (fun s => 0 <= snd s <= N) sl)).
  - intros; constructor.
  - intros k' N' cur' sl Hinv _ _ IH. constructor; [|exact IH].
    unfold loop_inv in Hinv. cbn. lia.
  - intros k' N' cur' Hinv Hlt. unfold loop_inv in Hinv. constructor.
    + cbn. lia.
    + apply Forall_repeat. cbn. lia.
Qed.

Lemma distribute_loop_sum (k : nat) (N cur : Z) :
  loop_inv n N cur ->
  sum_Z (slice_sizes (distribute_loop k n N cur))
  = Z.min (n - cur) (Z.of_nat k * N).
Proof.
  apply (distribute_loop_ind n
           (fun k N cur sl =>
              sum_Z (slice_sizes sl) = Z.min (n - cur) (Z.of_nat k * N))).
  - intros N' cur' Hinv. unfold loop_inv in Hinv. cbn. lia.
  - intros k' N' cur' sl Hinv Hle _ IH. unfold loop_inv in Hinv.
    rewrite sum_sizes_cons, IH. cbn [snd].
    rewrite Nat2Z.inj_succ, Z.mul_succ_l. lia.
  - intros k' N' cur' Hinv Hlt. unfold loop_inv in Hinv.
    rewrite sum_sizes_cons, sum_sizes_empty. cbn [snd].
    rewrite Nat2Z.inj_succ, Z.mul_succ_l.
    assert (0 <= Z.of_nat k' * N') by nia. lia.
Qed.

Lemma distribute_loop_non_increasing (k : nat) (N cur : Z) :
  loop_inv n N cur ->
  Forall (fun s => snd s <= N) (distribute_loop k n N cur) /\
  non_increasing (slice_sizes (distribute_loop k n N cur)).
Proof.
  apply (distribute_loop_ind n
           (fun _ N _ sl =>
              Forall (fun s => snd s <= N) sl /\
              non_increasing (slice_sizes sl))).
  - intros; split; [constructor | exact I].
  - intros k' N' cur' sl _ _ _ [Hall Hni]. split.
    + constructor; [cbn; lia | exact Hall].
    + apply non_increasing_cons; [|exact Hni].
      apply Forall_map. exact Hall.
  - intros k' N' cur' Hinv Hlt. unfold loop_inv in Hinv. split.
    + constructor; [cbn; lia|]. apply Forall_repeat. cbn. lia.
    + apply (non_increasing_zeros (n - cur') n k'). lia.
Qed.

Lemma distribute_loop_partial (k : nat) (N cur : Z) :
  loop_inv n N cur ->
  (List.length (partial_slices N (distribute_loop k n N cur)) <= 1)%nat.
Proof.
  apply (distribute_loop_ind n
           (fun _ N _ sl => (List.length (partial_slices N sl) <= 1)%nat)).
  - intros; cbn; lia.
  - intros k' N' cur' sl _ _ _ IH. unfold partial_slices in *.
    cbn [filter snd]. rewrite Z.ltb_irrefl, andb_false_r. exact IH.
  - intros k' N' cur' _ _. unfold partial_slices.
    cbn [filter]. fold (partial_slices N' (repeat (n, 0) k')).
    rewrite partial_slices_empty.
    destruct (_ && _); cbn; lia.
Qed.

(** After an empty slice, every slice is empty and starts at the end. *)
Lemma distribute_loop_zero_persists (k : nat) (N cur : Z) :
  loop_inv n N cur ->
  forall i j s s' c',
    (i < j)%nat ->
    nth_error (distribute_loop k n N cur) i = Some (s, 0) ->
    nth_error (distribute_loop k n N cur) j = Some (s', c') ->
    s' = n /\ c' = 0.
Proof.
  apply (distribute_loop_ind n
           (fun _ _ _ sl =>
              forall i j s s' c',
                (i < j)%nat ->
                nth_error sl i = Some (s, 0) ->
                nth_error sl j = Some (s', c') ->
                s' = n /\ c' = 0)).
  - intros N' cur' _ i j s s' c' _ H. destruct i; discriminate.
  - intros k' N' cur' sl Hinv Hle Hinv' IH i j s s' c' Hij Hi Hj.
    destruct j as [|j]; [lia|]. cbn in Hj.
    destruct i as [|i].
    + cbn in Hi. injection Hi as Hs HN. subst s N' sl.
      unfold loop_inv in Hinv.
      assert (cur' = n) by lia. subst cur'.
      pose proof (distribute_loop_sizes k' 0 (n + 0) Hinv') as Hall.
      apply nth_error_In in Hj as Hin.
      rewrite Forall_forall in Hall. specialize (Hall _ Hin). cbn in Hall.
      pose proof (distribute_loop_contiguous k' 0 (n + 0) Hinv') as Hch.
      split; [|lia].
      rewrite Z.add_0_r in *.
      rewrite (distribute_loop_exhausted n k' 0) in Hj by lia.
      apply nth_error_repeat_some in Hj. congruence.
    + cbn in Hi. apply (IH i j s s' c'); [lia | exact Hi | exact Hj].
  - intros k' N' cur' _ _ i j s s' c' Hij _ Hj.
    destruct j as [|j]; [lia|]. cbn in Hj.
    apply nth_error_repeat_some in Hj. split; congruence.
Qed.

End Slices.

(* ================================================================== *)
(** * The partition: completeness, fairness, monotonicity *)

Example slices_5_2 : slices 5 2 = [(0, 3); (3, 2)].
Proof. reflexivity. Qed.

Example slices_6_3 : slices 6 3 = [(0, 2); (2, 2); (4, 2)].
Proof. reflexivity. Qed.

Example slices_1_3 : slices 1 3 = [(0, 1); (1, 0); (1, 0)].
Proof. reflexivity. Qed.

Example slices_0_2 : slices 0 2 = [(0, 0); (0, 0)].
Proof. reflexivity. Qed.

(** C1.  For a testing set of [n >= 0] items and [p >= 1] workers, the
    loop computes [p] slices that form a chain from index 0, have no
    negative size, have sizes that sum to [n], and cover every index of
    [{0, ..., n-1}] exactly once and no other index. *)
Theorem partition_complete (n p : Z) :
  0 <= n <= INT_MAX -> 1 <= p <= INT_MAX ->
  List.length (slices n p) = Z.to_nat p /\ partitions n (slices n p).
Proof.
  intros Hn Hp. unfold slices.
  pose proof (loop_inv_initial n p Hn ltac:(lia)) as Hinv.
  set (k := Z.to_nat p). set (N := initial_N n p) in *.
  pose proof (distribute_loop_contiguous n k N 0 Hinv) as Hch.
  assert (Hpos : Forall (fun s => 0 <= snd s) (distribute_loop k n N 0)).
  { eapply Forall_impl; [|apply (distribute_loop_sizes n k N 0 Hinv)].
    cbn. intros; lia. }
  assert (Hsum : sum_Z (slice_sizes (distribute_loop k n N 0)) = n).
  { rewrite (distribute_loop_sum n k N 0 Hinv).
    unfold k, N. rewrite Z2Nat.id by lia.
    rewrite initial_N_ceil by lia.
    pose proof (ceil_div_bounds n p ltac:(lia) ltac:(lia)). lia. }
  split; [apply distribute_loop_length|].
  repeat split; try assumption.
  intros x. rewrite (cover_count_chain _ 0 Hch Hpos x).
  unfold end_of. rewrite Hsum. reflexivity.
Qed.

Lemma partition_complete_witness :
  0 <= 5 <= INT_MAX /\ 1 <= 2 <= INT_MAX /\
  List.length (slices 5 2) = Z.to_nat 2 /\ partitions 5 (slices 5 2).
Proof.
  assert (Hn : 0 <= 5 <= INT_MAX) by (unfold INT_MAX; lia).
  assert (Hp : 1 <= 2 <= INT_MAX) by (unfold INT_MAX; lia).
  split; [exact Hn|]. split; [exact Hp|].
  exact (partition_complete 5 2 Hn Hp).
Defined.

(** C2, as stated, fails: five items over four workers give the sizes
    2, 2, 1, 0, and two of these slices are shorter than the ceiling 2. *)
Lemma fairness_counterexample :
  slices 5 4 = [(0, 2); (2, 2); (4, 1); (5, 0)] /\
  ceil_div 5 4 = 2 /\
  ~ (List.length (short_slices (ceil_div 5 4) (slices 5 4)) <= 1)%nat.
Proof.
  split; [reflexivity|]. split; [reflexivity|].
  vm_compute. lia.
Qed.

(** C2, amended.  No slice is larger than [ceil(n / p)]; at most one
    slice is short without being empty, so every other short slice is
    empty; five items over two workers give the sizes 3 and 2 in that
    order. *)
Theorem partition_fair (n p : Z) :
  0 <= n <= INT_MAX -> 1 <= p <= INT_MAX ->
  Forall (fun s => snd s <= ceil_div n p) (slices n p) /\
  (List.length (partial_slices (ceil_div n p) (slices n p)) <= 1)%nat /\
  slice_sizes (slices 5 2) = [3; 2].
Proof.
  intros Hn Hp. unfold slices.
  pose proof (loop_inv_initial n p Hn ltac:(lia)) as Hinv.
  rewrite (initial_N_ceil n p Hn ltac:(lia)) in *.
  split; [|split].
  - apply (distribute_loop_non_increasing n _ _ 0 Hinv).
  - apply (distribute_loop_partial n _ _ 0 Hinv).
  - reflexivity.
Qed.

Lemma partition_fair_witness :
  0 <= 5 <= INT_MAX /\ 1 <= 4 <= INT_MAX /\
  Forall (fun s => snd s <= ceil_div 5 4) (slices 5 4) /\
  (List.length (partial_slices (ceil_div 5 4) (slices 5 4)) <= 1)%nat /\
  slice_sizes (slices 5 2) = [3; 2].
Proof.
  assert (Hn : 0 <= 5 <= INT_MAX) by (unfold INT_MAX; lia).
  assert (Hp : 1 <= 4 <= INT_MAX) by (unfold INT_MAX; lia).
  split; [exact Hn|]. split; [exact Hp|].
  exact (partition_fair 5 4 Hn Hp).
Defined.

(** C10.  The slice sizes never increase from one worker to the next,
    and once a worker has received an empty slice every later worker
    receives the start index [n] and the size 0. *)
Theorem partition_monotone (n p : Z) :
  0 <= n <= INT_MAX -> 1 <= p <= INT_MAX ->
  non_increasing (slice_sizes (slices n p)) /\
  empty_from_then_on n (slices n p).
Proof.
  intros Hn Hp. unfold slices.
  pose proof (loop_inv_initial n p Hn ltac:(lia)) as Hinv.
  split.
  - apply (distribute_loop_non_increasing n _ _ 0 Hinv).
  - exact (distribute_loop_zero_persists n _ _ 0 Hinv).
Qed.

Lemma partition_monotone_witness :
  0 <= 1 <= INT_MAX /\ 1 <= 3 <= INT_MAX /\
  non_increasing (slice_sizes (slices 1 3)) /\
  empty_from_then_on 1 (slices 1 3).
Proof.
  assert (Hn : 0 <= 1 <= INT_MAX) by (unfold INT_MAX; lia).
  assert (Hp : 1 <= 3 <= INT_MAX) by (unfold INT_MAX; lia).
  split; [exact Hn|]. split; [exact Hp|].
  exact (partition_monotone 1 3 Hn Hp).
Defined.

(* ================================================================== *)
(** * Computations: how they compose *)

Lemma bind_ret_l {A B : Type} (a : A) (f : A -> proc B) :
  bind (ret a) f = f a.
Proof. unfold bind, ret. now destruct (f a). Qed.

Lemma bind_continue {A B : Type} (t : list event) (a : A) (f : A -> proc B) :
  bind (t, Continue a) f = (t ++ fst (f a), snd (f a)).
Proof. unfold bind. now destruct (f a). Qed.

Lemma when_said (b : bool) (s : string) :
  when b (emit (Stdout (String.append s nl))) = (said b s, Continue tt).
Proof. now destruct b. Qed.

Lemma yields_ret {A : Type} (w : world) (a : A) : yields w (ret a) [] a.
Proof. now left. Qed.

Lemma yields_continue {A : Type} (w : world) (t : list event) (a : A) :
  yields w (t, Continue a) t a.
Proof. now left. Qed.

Lemma yields_checked (w : world) (c : syscall) (e : event) (msg : string) :
  yields w (checked w c e msg) [e] tt.
Proof.
  unfold checked. destruct (fails w c) eqn:E.
  - right. split; [eexists; reflexivity | now exists c].
  - now left.
Qed.

Lemma yields_bind {A B : Type} (w : world) (m : proc A) (f : A -> proc B)
  (t t' : list event) (a : A) (b : B) :
  yields w m t a -> yields w (f a) t' b -> yields w (bind m f) (t ++ t') b.
Proof.
  intros [->|[[t1 ->] Hc]]; [|right; split; [now exists t1 | exact Hc]].
  intros [E|[[t2 E] Hc]]; unfold bind; rewrite E.
  - now left.
  - right. split; [eexists; reflexivity | exact Hc].
Qed.

(** A computation that can only fail through a system call goes through
    when none fails, and also when it is seen not to exit. *)
Lemma yields_undisturbed {A : Type} (w : world) (m : proc A)
  (t : list event) (a : A) :
  yields w m t a -> (forall c, fails w c = false) -> m = (t, Continue a).
Proof.
  intros [E|[_ [c Hc]]] Hno; [exact E|]. rewrite Hno in Hc. discriminate.
Qed.

Lemma yields_status (w : world) (m : proc Z) (t : list event) (a : Z) :
  yields w m t a -> snd (finish m) <> 1 -> m = (t, Continue a).
Proof.
  intros [E|[[t' E] _]] Hs; [exact E|]. rewrite E in Hs. now cbn in Hs.
Qed.

(* ================================================================== *)
(** * The four loops *)

Lemma spawn_loop_yields (w : world) (K : Z) (d_func : metric) (n : nat) :
  forall i, yields w (spawn_loop w K d_func n i)
                   (spawn_events K d_func n i) tt.
Proof.
  induction n as [|n IH]; intros i; [apply yields_ret|].
  cbn [spawn_loop spawn_events].
  apply (yields_bind w _ _ [Pipe i] _ tt); [apply yields_checked|].
  apply (yields_bind w _ _ [Fork i K d_func] _ tt); [apply yields_checked|].
  apply IH.
Qed.

Lemma distribute_yields (w : world) (num_items : Z) (n : nat) :
  forall i N cur_start fds,
    yields w (distribute w num_items n i N cur_start fds)
           (dispatch_events i (distribute_loop n num_items N cur_start))
           (dispatch_pipes i (distribute_loop n num_items N cur_start) fds).
Proof.
  induction n as [|n IH]; intros i N cur fds; [apply yields_ret|].
  cbn [distribute distribute_loop dispatch_events dispatch_pipes].
  apply (yields_bind w _ _ [Write i cur] _ tt); [apply yields_checked|].
  apply (yields_bind w _ _ [Write i (adjust_N num_items cur N)] _ tt);
    [apply yields_checked|].
  apply (yields_bind w _ _ [CloseWrite i] _ tt); [apply yields_checked|].
  apply IH.
Qed.

Lemma wait_loop_yields (w : world) (n : nat) :
  forall i, yields w (wait_loop w n i) (repeat Wait n) tt.
Proof.
  induction n as [|n IH]; intros i; [apply yields_ret|].
  cbn [wait_loop repeat].
  apply (yields_bind w _ _ [Wait] _ tt); [apply yields_checked | apply IH].
Qed.

Lemma collect_yields (w : world) (fds : pipes) (n : nat) :
  forall i total_correct num_correct,
    yields w (collect w fds n i total_correct num_correct)
           (collect_events fds n i num_correct)
           (collect_total fds n i total_correct num_correct).
Proof.
  induction n as [|n IH]; intros i total nc; [apply yields_ret|].
  cbn [collect collect_events collect_total].
  destruct (fails w (SysRead i)) eqn:E.
  - right. split; [eexists; reflexivity | now exists (SysRead i)].
  - destruct (read_int fds i nc) as [got nc'] eqn:R. cbn [fst snd].
    apply (yields_bind w (emit (Read i got)) _ [Read i got] _ tt);
      [apply yields_continue|].
    apply (yields_bind w _ _ [CloseRead i] _ tt); [apply yields_checked|].
    apply IH.
Qed.

Lemma declare_fds_defined (num_procs : Z) :
  0 <= num_procs -> declare_fds num_procs = ret tt.
Proof.
  intros H. unfold declare_fds. destruct (Z.ltb_spec num_procs 0); [lia|].
  reflexivity.
Qed.

(** With a negative number of workers the run is undefined from the
    declaration of the array on. *)
Lemma run_workers_undefined (w : world) (o : options) (d_func : metric)
  (testing : Dataset) :
  num_procs o < 0 ->
  run_workers w o d_func testing
  = (said (verbose o) "- Creating children ...", Exited undefined_status).
Proof.
  intros H. unfold run_workers, declare_fds. rewrite when_said.
  destruct (Z.ltb_spec (num_procs o) 0); [|lia].
  unfold bind, undefined. now rewrite app_nil_r.
Qed.

(** From the creation of the children to the end: unless a system call
    fails, the parent does what [before_report] lists, prints the total
    it has computed, and returns 0. *)
Lemma run_workers_yields (w : world) (o : options) (d_func : metric)
  (testing : Dataset) :
  0 <= num_procs o ->
  yields w (run_workers w o d_func testing)
         (before_report w o d_func testing ++
          report o (total_of w o testing)) 0.
Proof.
  intros Hp.
  unfold run_workers, before_report, report, total_of, results.
  repeat rewrite <- app_assoc.
  rewrite !when_said.
  eapply yields_bind; [apply yields_continue|].
  rewrite (declare_fds_defined _ Hp), bind_ret_l.
  eapply yields_bind; [apply spawn_loop_yields|].
  eapply yields_bind; [apply distribute_yields|].
  eapply yields_bind; [apply yields_continue|].
  eapply yields_bind; [apply wait_loop_yields|].
  eapply yields_bind; [apply collect_yields|].
  eapply yields_bind; [left; apply when_said|].
  left. reflexivity.
Qed.

(* ================================================================== *)
(** * [main], once the datasets are loaded *)

Section Loaded.

Variables (argv : list string) (w : world) (o : options) (d_func : metric).
Variables (training_file : string) (testing_file : option string).
Variables (training testing : Dataset).

Hypothesis Hloaded :
  loaded argv w o d_func training_file testing_file training testing.

Lemma main_body_loaded :
  main_body argv w
  = bind (loading o (Some training_file) testing_file, Continue tt)
         (fun _ => run_workers w o d_func testing).
Proof.
  destruct Hloaded as (rest & Hp & Hf & Hm & H1 & H2).
  unfold main_body. rewrite Hp, bind_ret_l. cbn [fst snd run_operands].
  rewrite <- Hf. unfold run_files. rewrite Hm, bind_ret_l.
  unfold run_metric, load, loading. rewrite H1, H2.
  destruct (verbose o);
    cbv beta iota delta [bind emit ret when];
    destruct (run_workers w o d_func testing) as [t r]; reflexivity.
Qed.

Lemma main_body_yields :
  0 <= num_procs o ->
  yields w (main_body argv w)
         (loading o (Some training_file) testing_file ++
          before_report w o d_func testing ++
          report o (total_of w o testing)) 0.
Proof.
  intros Hp. rewrite main_body_loaded.
  eapply yields_bind; [apply yields_continue | now apply run_workers_yields].
Qed.

(** A run with a negative number of workers does not end with a status
    of its own. *)
Lemma main_undefined :
  num_procs o < 0 -> snd (main argv w) = undefined_status.
Proof.
  intros Hp. unfold main. rewrite main_body_loaded.
  rewrite (run_workers_undefined w o d_func testing Hp). reflexivity.
Qed.

(** A run that ends with status 0 has gone through all of it. *)
Lemma main_success :
  status argv w = 0 ->
  main argv w
  = (loading o (Some training_file) testing_file ++
     before_report w o d_func testing ++
     report o (total_of w o testing), 0).
Proof.
  intros Hs.
  assert (Hp : 0 <= num_procs o).
  { destruct (Z.le_gt_cases 0 (num_procs o)) as [H|H]; [exact H|].
    unfold status in Hs. rewrite (main_undefined ltac:(lia)) in Hs.
    discriminate Hs. }
  unfold status, main in *.
  rewrite (yields_status w _ _ _ (main_body_yields Hp)); [reflexivity|].
  rewrite Hs. discriminate.
Qed.

(** So has a run in which no system call fails. *)
Lemma main_undisturbed :
  0 <= num_procs o ->
  (forall c, fails w c = false) ->
  main argv w
  = (loading o (Some training_file) testing_file ++
     before_report w o d_func testing ++
     report o (total_of w o testing), 0).
Proof.
  intros Hp Hno. unfold main.
  now rewrite (yields_undisturbed w _ _ _ (main_body_yields Hp) Hno).
Qed.

End Loaded.

(* ================================================================== *)
(** * What the pipes hold *)

Lemma dispatch_pipes_before (sl : list (Z * Z)) :
  forall i fds j, (j < i)%nat -> dispatch_pipes i sl fds j = fds j.
Proof.
  induction sl as [|[s c] sl IH]; intros i fds j Hj; [reflexivity|].
  cbn [dispatch_pipes]. rewrite IH by lia. unfold pipe_write.
  destruct (Nat.eqb_spec j i); [lia | reflexivity].
Qed.

(** The parent writes exactly the two integers of slice [j] to pipe [j]. *)
Lemma dispatch_pipes_slice (sl : list (Z * Z)) :
  forall i fds j s c,
    nth_error sl j = Some (s, c) ->
    dispatch_pipes i sl fds (i + j)%nat = fds (i + j)%nat ++ [s; c].
Proof.
  induction sl as [|[s0 c0] sl IH]; intros i fds j s c Hj.
  - destruct j; discriminate.
  - cbn [dispatch_pipes]. destruct j as [|j].
    + cbn in Hj. injection Hj as -> ->. rewrite Nat.add_0_r.
      rewrite dispatch_pipes_before by lia. unfold pipe_write.
      rewrite Nat.eqb_refl. now rewrite <- app_assoc.
    + cbn in Hj. replace (i + S j)%nat with (S i + j)%nat by lia.
      rewrite (IH (S i) _ j s c Hj). unfold pipe_write.
      destruct (Nat.eqb_spec (S i + j) i); [lia | reflexivity].
Qed.

(** A worker that reports leaves its count, and only that, in its pipe. *)
Lemma results_reported (w : world) (o : options) (testing : Dataset)
  (i : nat) (c : Z) :
  (i < Z.to_nat (num_procs o))%nat ->
  worker w i = Reports c ->
  results w o testing i = [c].
Proof.
  intros Hi Hw. unfold results, after_children. rewrite Hw.
  set (sl := slices (num_items testing) (num_procs o)).
  assert (Hlen : List.length sl = Z.to_nat (num_procs o))
    by apply distribute_loop_length.
  destruct (nth_error sl i) as [[s n]|] eqn:E.
  - pose proof (dispatch_pipes_slice sl 0 no_data i s n E) as H.
    cbn [Nat.add] in H. rewrite H. reflexivity.
  - apply nth_error_None in E. lia.
Qed.

(** The pipe of a worker that was killed after it had read its
    assignment is empty. *)
Lemma results_missing (w : world) (o : options) (testing : Dataset)
  (i : nat) :
  (i < Z.to_nat (num_procs o))%nat ->
  worker w i = DiesBeforeReporting ->
  results w o testing i = [].
Proof.
  intros Hi Hw. unfold results, after_children. rewrite Hw.
  set (sl := slices (num_items testing) (num_procs o)).
  assert (Hlen : List.length sl = Z.to_nat (num_procs o))
    by apply distribute_loop_length.
  destruct (nth_error sl i) as [[s n]|] eqn:E.
  - pose proof (dispatch_pipes_slice sl 0 no_data i s n E) as H.
    cbn [Nat.add] in H. rewrite H. reflexivity.
  - apply nth_error_None in E. lia.
Qed.

(* ================================================================== *)
(** * The collection loop on reported counts *)

Section Reported.

Variables (fds : pipes) (count : nat -> Z).

Lemma counts_from_succ (i n : nat) :
  counts_from count i (S n) = count i :: counts_from count (S i) n.
Proof. reflexivity. Qed.

Lemma counts_from_nonneg (n : nat) :
  forall i,
    (forall j, (i <= j < i + n)%nat -> 0 <= count j) ->
    0 <= sum_Z (counts_from count i n).
Proof.
  induction n as [|n IH]; intros i Hpos; [cbn; lia|].
  rewrite counts_from_succ. cbn [sum_Z fold_right].
  fold (sum_Z (counts_from count (S i) n)).
  pose proof (Hpos i ltac:(lia)).
  pose proof (IH (S i) ltac:(intros; apply Hpos; lia)). lia.
Qed.

Lemma collect_total_sum (n : nat) :
  forall i total_correct num_correct,
    (forall j, (i <= j < i + n)%nat -> fds j = [count j]) ->
    (forall j, (i <= j < i + n)%nat -> 0 <= count j) ->
    0 <= total_correct ->
    total_correct + sum_Z (counts_from count i n) <= INT_MAX ->
    collect_total fds n i total_correct num_correct
    = total_correct + sum_Z (counts_from count i n).
Proof.
  induction n as [|n IH]; intros i total nc Hf Hpos Ht Hmax.
  - cbn. lia.
  - rewrite counts_from_succ in *. cbn [sum_Z fold_right] in *.
    fold (sum_Z (counts_from count (S i) n)) in *.
    cbn [collect_total]. unfold read_int. rewrite (Hf i) by lia. cbn [snd].
    pose proof (Hpos i ltac:(lia)) as Hi.
    pose proof (counts_from_nonneg n (S i) ltac:(intros; apply Hpos; lia)).
    unfold int_add. rewrite wrap32_small
      by (unfold in_int, INT_MIN, INT_MAX in *; lia).
    rewrite IH; try lia.
    + intros j Hj. apply Hf. lia.
    + intros j Hj. apply Hpos. lia.
Qed.

Lemma collect_events_reported (n : nat) :
  forall i num_correct,
    (forall j, (i <= j < i + n)%nat -> fds j = [count j]) ->
    collect_events fds n i num_correct
    = flat_map (fun j => [Read j (Some (count j)); CloseRead j]) (seq i n).
Proof.
  induction n as [|n IH]; intros i nc Hf; [reflexivity|].
  cbn [collect_events seq flat_map]. unfold read_int.
  rewrite (Hf i) by lia. cbn [fst snd app].
  rewrite IH; [reflexivity|]. intros j Hj. apply Hf. lia.
Qed.

End Reported.

(* ================================================================== *)
(** * Which events each part of a run consists of *)

Lemma in_said (b : bool) (s : string) (e : event) :
  In e (said b s) -> e = Stdout (String.append s nl).
Proof.
  destruct b; cbn; [intros [H|[]]; now symmetry | intros []].
Qed.

Lemma in_spawn_events (K : Z) (d_func : metric) (n : nat) (e : event) :
  forall i, In e (spawn_events K d_func n i) ->
            exists j, e = Pipe j \/ e = Fork j K d_func.
Proof.
  induction n as [|n IH]; intros i; cbn; [intros []|].
  intros [H|[H|H]]; [exists i; now left | exists i; now right | eauto].
Qed.

Lemma in_dispatch_events (sl : list (Z * Z)) (e : event) :
  forall i, In e (dispatch_events i sl) ->
            exists j v, e = Write j v \/ e = CloseWrite j.
Proof.
  induction sl as [|[s c] sl IH]; intros i; cbn; [intros []|].
  intros [H|[H|[H|H]]].
  - exists i, s. now left.
  - exists i, c. now left.
  - exists i, 0. now right.
  - eauto.
Qed.

Lemma in_collect_events (fds : pipes) (n : nat) (e : event) :
  forall i num_correct,
    In e (collect_events fds n i num_correct) ->
    exists j got, e = Read j got \/ e = CloseRead j.
Proof.
  induction n as [|n IH]; intros i nc; cbn; [intros []|].
  intros [H|[H|H]].
  - eexists i, _. left. symmetry. exact H.
  - exists i, None. now right.
  - eauto.
Qed.

Lemma filter_none {A : Type} (f : A -> bool) (l : list A) :
  (forall x, In x l -> f x = false) -> filter f l = [].
Proof.
  induction l as [|x l IH]; intros H; [reflexivity|].
  cbn. rewrite (H x (or_introl eq_refl)). apply IH.
  intros y Hy. apply H. now right.
Qed.

Lemma filter_all {A : Type} (f : A -> bool) (l : list A) :
  (forall x, In x l -> f x = true) -> filter f l = l.
Proof.
  induction l as [|x l IH]; intros H; [reflexivity|].
  cbn. rewrite (H x (or_introl eq_refl)). f_equal. apply IH.
  intros y Hy. apply H. now right.
Qed.

Lemma stdout_of_app (t t' : list event) :
  stdout_of (t ++ t') = stdout_of t ++ stdout_of t'.
Proof.
  induction t as [|e t IH]; [reflexivity|].
  destruct e; cbn; now rewrite IH.
Qed.

Lemma stdout_of_none (t : list event) :
  (forall e, In e t -> is_stdout e = false) -> stdout_of t = [].
Proof.
  induction t as [|e t IH]; intros H; [reflexivity|].
  pose proof (H e (or_introl eq_refl)) as He.
  destruct e; try discriminate; cbn; apply IH; intros y Hy; apply H; now right.
Qed.

Lemma stdout_of_said (b : bool) (s : string) :
  stdout_of (said b s) = if b then [String.append s nl] else [].
Proof. now destruct b. Qed.

(** Closes a goal [f e = false] from the membership of [e] in one of
    the parts of a run. *)
Ltac other_kind H :=
  first
    [ apply in_said in H
    | apply in_spawn_events in H; destruct H as [? [H|H]]
    | apply in_dispatch_events in H; destruct H as [? [? [H|H]]]
    | apply repeat_spec in H
    | apply in_collect_events in H; destruct H as [? [? [H|H]]] ];
  subst; reflexivity.

Section Parts.

Variables (w : world) (o : options) (d_func : metric) (testing : Dataset).

Lemma stdout_before_report :
  stdout_of (before_report w o d_func testing)
  = if verbose o then [creating_line; waiting_line] else [].
Proof.
  unfold before_report. rewrite !stdout_of_app, !stdout_of_said.
  rewrite (stdout_of_none (spawn_events _ _ _ _))
    by (intros e H; other_kind H).
  rewrite (stdout_of_none (dispatch_events _ _))
    by (intros e H; other_kind H).
  rewrite (stdout_of_none (repeat _ _)) by (intros e H; other_kind H).
  rewrite (stdout_of_none (collect_events _ _ _ _))
    by (intros e H; other_kind H).
  now destruct (verbose o).
Qed.

Lemma stdout_report (total_correct : Z) :
  stdout_of (report o total_correct)
  = if verbose o
    then [predictions_line total_correct; total_line total_correct]
    else [total_line total_correct].
Proof.
  unfold report. rewrite stdout_of_app, stdout_of_said.
  now destruct (verbose o).
Qed.

Lemma stdout_loading (training_file testing_file : option string) :
  stdout_of (loading o training_file testing_file) = [].
Proof. unfold loading. now destruct (verbose o). Qed.

Lemma waits_before_report :
  waits_in (before_report w o d_func testing) = workers o.
Proof.
  unfold waits_in, before_report. rewrite !filter_app.
  rewrite (filter_none _ (said _ _)) by (intros e H; other_kind H).
  rewrite (filter_none _ (spawn_events _ _ _ _))
    by (intros e H; other_kind H).
  rewrite (filter_none _ (dispatch_events _ _))
    by (intros e H; other_kind H).
  rewrite (filter_none _ (said _ _)) by (intros e H; other_kind H).
  rewrite (filter_none _ (collect_events _ _ _ _))
    by (intros e H; other_kind H).
  rewrite (filter_all _ (repeat _ _)) by (intros e H; other_kind H).
  cbn [app]. rewrite app_nil_r. apply repeat_length.
Qed.

Lemma reads_before_report :
  reads_in (before_report w o d_func testing)
  = reads_in (collect_events (results w o testing) (workers o) 0
                             (indeterminate w)).
Proof.
  unfold reads_in, before_report. rewrite !filter_app.
  rewrite (filter_none _ (said _ _)) by (intros e H; other_kind H).
  rewrite (filter_none _ (spawn_events _ _ _ _))
    by (intros e H; other_kind H).
  rewrite (filter_none _ (dispatch_events _ _))
    by (intros e H; other_kind H).
  rewrite (filter_none _ (said _ _)) by (intros e H; other_kind H).
  rewrite (filter_none _ (repeat _ _)) by (intros e H; other_kind H).
  reflexivity.
Qed.

Lemma forks_before_report :
  forks_in (before_report w o d_func testing)
  = forks_in (spawn_events (K o) d_func (workers o) 0).
Proof.
  unfold forks_in, before_report. rewrite !filter_app.
  rewrite (filter_none _ (said _ _)) by (intros e H; other_kind H).
  rewrite (filter_none _ (dispatch_events _ _))
    by (intros e H; other_kind H).
  rewrite (filter_none _ (said _ _)) by (intros e H; other_kind H).
  rewrite (filter_none _ (repeat _ _)) by (intros e H; other_kind H).
  rewrite (filter_none _ (collect_events _ _ _ _))
    by (intros e H; other_kind H).
  cbn [app]. now rewrite app_nil_r.
Qed.

Lemma writes_before_report :
  writes_in (before_report w o d_func testing)
  = writes_in (dispatch_events 0 (slices (num_items testing) (num_procs o))).
Proof.
  unfold writes_in, before_report. rewrite !filter_app.
  rewrite (filter_none _ (said _ _)) by (intros e H; other_kind H).
  rewrite (filter_none _ (spawn_events _ _ _ _))
    by (intros e H; other_kind H).
  rewrite (filter_none _ (said _ _)) by (intros e H; other_kind H).
  rewrite (filter_none _ (repeat _ _)) by (intros e H; other_kind H).
  rewrite (filter_none _ (collect_events _ _ _ _))
    by (intros e H; other_kind H).
  cbn [app]. now rewrite app_nil_r.
Qed.

End Parts.

Lemma forks_spawn_events (K : Z) (d_func : metric) (n : nat) :
  forall i, forks_in (spawn_events K d_func n i)
            = map (fun j => Fork j K d_func) (seq i n).
Proof.
  induction n as [|n IH]; intros i; [reflexivity|].
  unfold forks_in in *. cbn. now rewrite IH.
Qed.

Lemma writes_dispatch_events (sl : list (Z * Z)) :
  forall i, writes_in (dispatch_events i sl) = slice_writes i sl.
Proof.
  induction sl as [|[s c] sl IH]; intros i; [reflexivity|].
  unfold writes_in in *. cbn. now rewrite IH.
Qed.

Lemma reads_reported (count : nat -> Z) (n : nat) :
  forall i,
    reads_in (flat_map (fun j => [Read j (Some (count j)); CloseRead j])
                       (seq i n))
    = map (fun j => Read j (Some (count j))) (seq i n).
Proof.
  induction n as [|n IH]; intros i; [reflexivity|].
  unfold reads_in in *. cbn. now rewrite IH.
Qed.

(* ================================================================== *)
(** * Strings *)

Lemma byte_of_inj (c c' : ascii) : byte_of c = byte_of c' -> c = c'.
Proof.
  unfold byte_of. intros H. apply Nat2Z.inj in H.
  rewrite <- (ascii_nat_embedding c), <- (ascii_nat_embedding c').
  now rewrite H.
Qed.

(** [strncmp(s, t, strlen(s)) == 0] tests whether [s] is an initial
    substring of [t]. *)
Lemma strncmp_prefix (s : string) :
  no_nul s = true ->
  forall t, (strncmp s t (strlen s) =? 0) = is_prefix s t.
Proof.
  induction s as [|c r IH]; intros Hs t; [reflexivity|].
  cbn [no_nul] in Hs. apply andb_true_iff in Hs as [Hc Hr].
  apply negb_true_iff, Z.eqb_neq in Hc.
  cbn [strlen String.length strncmp is_prefix]. destruct t as [|c' r'].
  - apply Z.eqb_neq. lia.
  - destruct (Ascii.eqb_spec c c') as [->|Hne].
    + apply (IH Hr).
    + apply Z.eqb_neq. intros E. apply Hne, byte_of_inj. lia.
Qed.

Lemma select_metric_prefix (s : string) :
  no_nul s = true ->
  select_metric s
  = if is_prefix s "euclidean" then ret distance_euclidean
    else if is_prefix s "cosine" then ret distance_cosine
    else (emit (Perror "Invalid distance metric") ;; exit 1).
Proof.
  intros Hs. unfold select_metric. now rewrite !strncmp_prefix.
Qed.

Lemma digits_value_none (s : string) (acc : Z) :
  starts_with_digit s = false -> digits_value s acc = acc.
Proof.
  destruct s as [|c r]; [reflexivity|]. cbn. now intros ->.
Qed.

(** [atoi] returns 0 when it finds no digit to convert. *)
Lemma atoi_no_digits (s : string) :
  no_leading_digits s = true -> atoi s = 0.
Proof.
  unfold atoi, strtol, no_leading_digits.
  destruct (skip_space s) as [|c r]; [reflexivity|].
  destruct c as [[] [] [] [] [] [] [] []];
    intros H; apply negb_true_iff in H;
    try rewrite (digits_value_none _ 0 H); try reflexivity;
    discriminate.
Qed.

(* ================================================================== *)
(** * The option loop, one argument at a time *)

Lemma getopt_loop_cons (name a : string) (rest : list string) (o : options) :
  getopt_loop name (a :: rest) o
  = if is_option_arg a then
      if String.eqb a "--" then ret (o, rest)
      else
        match scan_cluster (option_letters a) o with
        | ClusterDone o' => getopt_loop name rest o'
        | ClusterWantsNext c o' =>
            match rest with
            | optarg :: rest' =>
                getopt_loop name rest' (set_option c optarg o')
            | [] => getopt_fails name requires_argument c
            end
        | ClusterInvalid c => getopt_fails name invalid_option c
        end
    else ret (o, a :: rest).
Proof.
  destruct a as [|c cs]; [reflexivity|].
  destruct (Ascii.eqb_spec c "-") as [->|Hc].
  - destruct cs as [|c' cs']; [reflexivity|].
    destruct (Ascii.eqb_spec c' "-") as [->|Hc'].
    + destruct cs'; reflexivity.
    + cbn [is_option_arg option_letters String.eqb].
      change (Ascii.eqb "-" "-") with true.
      destruct (Ascii.eqb_spec c' "-") as [E|_]; [contradiction|].
      cbn [getopt_loop].
      destruct c' as [[] [] [] [] [] [] [] []];
        first [reflexivity | now elim Hc'].
  - destruct c as [[] [] [] [] [] [] [] []];
      first [reflexivity | now elim Hc].
Qed.

Lemma getopt_loop_operand (name a : string) (rest : list string)
  (o : options) :
  is_option_arg a = false ->
  getopt_loop name (a :: rest) o = ret (o, a :: rest).
Proof.
  intros H. now rewrite getopt_loop_cons, H.
Qed.

Lemma getopt_loop_result (name : string) (n : nat) :
  forall args o,
    (List.length args <= n)%nat ->
    (exists x, getopt_loop name args o = ret x) \/
    (exists t, getopt_loop name args o = (t, Exited 1)).
Proof.
  induction n as [|n IH]; intros args o Hlen.
  - destruct args; [left; eexists; reflexivity | cbn in Hlen; lia].
  - destruct args as [|a rest]; [left; eexists; reflexivity|].
    cbn [List.length] in Hlen. rewrite getopt_loop_cons.
    destruct (is_option_arg a); [|left; eexists; reflexivity].
    destruct (String.eqb a "--"); [left; eexists; reflexivity|].
    destruct (scan_cluster (option_letters a) o) as [o'|c o'|c].
    + apply IH. lia.
    + destruct rest as [|optarg rest'].
      * right. eexists. reflexivity.
      * apply IH. cbn [List.length] in Hlen. lia.
    + right. eexists. reflexivity.
Qed.

Lemma select_metric_result (s : string) :
  (exists d_func, select_metric s = ret d_func) \/
  select_metric s = ([Perror "Invalid distance metric"], Exited 1).
Proof.
  unfold select_metric.
  destruct (_ =? 0); [left; eexists; reflexivity|].
  destruct (_ =? 0); [left; eexists; reflexivity|].
  right. reflexivity.
Qed.

(** Every run that ends with status 0 has parsed its command line,
    selected a metric and loaded both datasets. *)
Lemma success_loaded (argv : list string) (w : world) :
  status argv w = 0 ->
  exists o d_func training_file testing_file training testing,
    loaded argv w o d_func training_file testing_file training testing.
Proof.
  intros Hs. unfold status, main, main_body in Hs.
  destruct (getopt_loop_result (hd "" argv) _ (tl argv) defaults (le_n _))
    as [[[o ops] E]|[t E]]; rewrite E in Hs; [|discriminate Hs].
  rewrite bind_ret_l in Hs. cbn [fst snd] in Hs.
  destruct ops as [|tf rest]; [discriminate Hs|].
  cbn [run_operands] in Hs. unfold run_files in Hs.
  destruct (select_metric_result (dist_metric o)) as [[d Ed]|Ed];
    rewrite Ed in Hs; [|discriminate Hs].
  rewrite bind_ret_l in Hs. unfold run_metric, load in Hs.
  destruct (load_dataset w (Some tf)) as [training|] eqn:L1;
    [|destruct (verbose o); discriminate Hs].
  destruct (load_dataset w (hd_error rest)) as [testing|] eqn:L2;
    [|destruct (verbose o); discriminate Hs].
  exists o, d, tf, (hd_error rest), training, testing, rest.
  repeat split; assumption.
Qed.

(* ================================================================== *)
(** * Aggregation *)

Lemma sum_Z_permutation (l l' : list Z) :
  Permutation l l' -> sum_Z l = sum_Z l'.
Proof.
  induction 1; unfold sum_Z in *; cbn in *; lia.
Qed.

Lemma in_counts_from (count : nat -> Z) (i n j : nat) :
  (i <= j < i + n)%nat -> In (count j) (counts_from count i n).
Proof.
  intros Hj. unfold counts_from. apply in_map, in_seq. lia.
Qed.

Lemma counts_from_all (count : nat -> Z) (P : Z -> Prop) (i n : nat) :
  (forall j, (i <= j < i + n)%nat -> P (count j)) <->
  Forall P (counts_from count i n).
Proof.
  unfold counts_from. rewrite Forall_forall. split.
  - intros H x Hx. apply in_map_iff in Hx as (j & <- & Hj).
    apply in_seq in Hj. now apply H.
  - intros H j Hj. apply H, in_map, in_seq. lia.
Qed.

(** When every worker reports, the total that the parent computes is the
    sum of the counts. *)
Lemma total_of_reported (w : world) (o : options) (testing : Dataset)
  (count : nat -> Z) :
  (forall i, (i < workers o)%nat -> worker w i = Reports (count i)) ->
  (forall i, (i < workers o)%nat -> 0 <= count i) ->
  sum_Z (counts_from count 0 (workers o)) <= INT_MAX ->
  total_of w o testing = sum_Z (counts_from count 0 (workers o)).
Proof.
  intros Hw Hpos Hmax. unfold total_of. fold (workers o).
  rewrite (collect_total_sum (results w o testing) count); try lia.
  - intros j Hj. apply results_reported; [unfold workers in *; lia|].
    apply Hw. lia.
  - intros j Hj. apply Hpos. lia.
Qed.

(** C6.  On a run that ends with status 0 and in which each of the [P]
    workers reports a count (counts are not negative and their sum fits
    an [int], as the counts of correct predictions over a partition of
    the testing set do): the trace ends with the printing of the sum of
    the counts; everything before it includes [P] successful [wait]
    calls and the reading of every worker's count, in worker order, and
    puts nothing on the output stream but the two lines that [-v] adds;
    and workers that report the same counts in any other order lead to
    the same total. *)
Theorem aggregation_correct
  (argv : list string) (w : world) (o : options) (d_func : metric)
  (training_file : string) (testing_file : option string)
  (training testing : Dataset) (count : nat -> Z) :
  loaded argv w o d_func training_file testing_file training testing ->
  status argv w = 0 ->
  (forall i, (i < workers o)%nat -> worker w i = Reports (count i)) ->
  (forall i, (i < workers o)%nat -> 0 <= count i) ->
  sum_Z (counts_from count 0 (workers o)) <= INT_MAX ->
  trace argv w
  = loading o (Some training_file) testing_file ++
    before_report w o d_func testing ++
    report o (sum_Z (counts_from count 0 (workers o))) /\
  waits_in (before_report w o d_func testing) = workers o /\
  reads_in (before_report w o d_func testing)
  = map (fun i => Read i (Some (count i))) (seq 0 (workers o)) /\
  stdout_of (loading o (Some training_file) testing_file ++
             before_report w o d_func testing)
  = (if verbose o then [creating_line; waiting_line] else []) /\
  forall w' count',
    (forall i, (i < workers o)%nat -> worker w' i = Reports (count' i)) ->
    Permutation (counts_from count' 0 (workers o))
                (counts_from count 0 (workers o)) ->
    total_of w' o testing = total_of w o testing.
Proof.
  intros Hl Hs Hw Hpos Hmax.
  pose proof (total_of_reported w o testing count Hw Hpos Hmax) as Htot.
  repeat split.
  - unfold trace. rewrite (main_success _ _ _ _ _ _ _ _ Hl Hs).
    cbn [fst]. now rewrite Htot.
  - apply waits_before_report.
  - rewrite reads_before_report.
    rewrite (collect_events_reported _ count).
    + apply reads_reported.
    + intros j Hj. apply results_reported; [unfold workers in *; lia|].
      apply Hw. lia.
  - now rewrite stdout_of_app, stdout_loading, stdout_before_report.
  - intros w' count' Hw' Hperm.
    rewrite Htot, (sum_Z_permutation _ _ (Permutation_sym Hperm)).
    apply total_of_reported; [exact Hw'| |].
    + intros i Hi.
      assert (Hall : Forall (fun c => 0 <= c)
                            (counts_from count 0 (workers o)))
        by (apply counts_from_all; intros; apply Hpos; lia).
      apply (Permutation_Forall (Permutation_sym Hperm)) in Hall.
      apply (proj2 (counts_from_all count' _ 0 (workers o)) Hall). lia.
    + now rewrite (sum_Z_permutation _ _ Hperm).
Qed.

Lemma sample_loaded :
  loaded sample_argv sample_world (with_procs 2) distance_euclidean
         "train" (Some "test") {| num_items := 3 |} {| num_items := 5 |}.
Proof.
  exists ["test"]. repeat split; reflexivity.
Qed.

Lemma sample_reports (i : nat) :
  (i < workers (with_procs 2))%nat ->
  worker sample_world i = Reports (sample_count i).
Proof.
  destruct i as [|[|i]]; [reflexivity | reflexivity | cbn; lia].
Qed.

Lemma sample_count_nonneg (i : nat) :
  (i < workers (with_procs 2))%nat -> 0 <= sample_count i.
Proof.
  destruct i as [|[|i]]; cbn; lia.
Qed.

Lemma aggregation_correct_witness :
  loaded sample_argv sample_world (with_procs 2) distance_euclidean
         "train" (Some "test") {| num_items := 3 |} {| num_items := 5 |} /\
  status sample_argv sample_world = 0 /\
  sum_Z (counts_from sample_count 0 (workers (with_procs 2))) <= INT_MAX /\
  trace sample_argv sample_world
  = loading (with_procs 2) (Some "train") (Some "test") ++
    before_report sample_world (with_procs 2) distance_euclidean
                  {| num_items := 5 |} ++
    report (with_procs 2) 3.
Proof.
  assert (Hmax : sum_Z (counts_from sample_count 0 (workers (with_procs 2)))
                 <= INT_MAX) by (vm_compute; discriminate).
  split; [exact sample_loaded|]. split; [reflexivity|].
  split; [exact Hmax|].
  exact (proj1 (aggregation_correct
                  sample_argv sample_world (with_procs 2) distance_euclidean
                  "train" (Some "test")
                  {| num_items := 3 |} {| num_items := 5 |} sample_count
                  sample_loaded eq_refl sample_reports sample_count_nonneg
                  Hmax)).
Defined.

(* ================================================================== *)
(** * The output stream *)

Lemma children_output_app (w : world) (t t' : list event) :
  forall buffered,
    children_output w buffered (t ++ t')
    = children_output w buffered t ++
      children_output w (buffered ++ stdout_of t) t'.
Proof.
  induction t as [|e t IH]; intros buffered.
  - cbn. now rewrite app_nil_r.
  - destruct e; cbn [app children_output stdout_of]; rewrite IH;
      rewrite <- ?app_assoc; reflexivity.
Qed.

Lemma children_output_none (w : world) (t : list event) :
  (forall e, In e t -> is_fork e = false) ->
  forall buffered, children_output w buffered t = [].
Proof.
  induction t as [|e t IH]; intros H buffered; [reflexivity|].
  pose proof (H e (or_introl eq_refl)) as He.
  assert (Ht : forall e', In e' t -> is_fork e' = false)
    by (intros e' He'; apply H; now right).
  destruct e; try discriminate He; cbn [children_output]; now apply IH.
Qed.

Lemma children_output_spawn (w : world) (K : Z) (d_func : metric)
  (buffered : list string) (n : nat) :
  forall i,
    children_output w buffered (spawn_events K d_func n i)
    = List.concat (map (fun j => child (worker w j) buffered) (seq i n)).
Proof.
  induction n as [|n IH]; intros i; [reflexivity|].
  cbn [spawn_events children_output seq map List.concat]. now rewrite IH.
Qed.

Lemma children_copies (w : world) (line : string) (l : list nat) :
  List.concat (map (fun j => child (worker w j) [line]) l)
  = repeat line (List.length (filter (fun j => leaves (worker w j)) l)).
Proof.
  induction l as [|j l IH]; [reflexivity|].
  cbn [map List.concat filter]. unfold child at 1.
  destruct (leaves (worker w j)); cbn [app List.length repeat];
    now rewrite IH.
Qed.

Lemma children_nothing (w : world) (l : list nat) :
  List.concat (map (fun j => child (worker w j) []) l) = [].
Proof.
  induction l as [|j l IH]; [reflexivity|].
  cbn [map List.concat]. rewrite IH. unfold child.
  now destruct (leaves (worker w j)).
Qed.

(** What the children write on a run that goes through: with [-v],
    each child that leaves through [exit] writes a copy of the line
    that the parent printed before it created them. *)
Lemma children_output_run (w : world) (o : options) (d_func : metric)
  (testing : Dataset) (training_file testing_file : option string)
  (total_correct : Z) :
  children_output w []
    (loading o training_file testing_file ++
     before_report w o d_func testing ++ report o total_correct)
  = if verbose o then repeat creating_line (leaving w (workers o)) else [].
Proof.
  rewrite children_output_app.
  rewrite (children_output_none w (loading _ _ _))
    by (intros e H; unfold loading in H;
        destruct (verbose o); cbn in H; intuition (subst; reflexivity)).
  rewrite stdout_loading. cbn [app].
  rewrite children_output_app.
  rewrite (children_output_none w (report _ _))
    by (intros e H; unfold report in H;
        apply in_app_or in H as [H|[H|[]]];
        [other_kind H | now subst]).
  rewrite app_nil_r. unfold before_report.
  rewrite children_output_app.
  rewrite (children_output_none w (said _ _))
    by (intros e H; other_kind H).
  rewrite stdout_of_said. cbn [app].
  rewrite children_output_app, children_output_spawn.
  rewrite (children_output_none w (_ ++ _)).
  - rewrite app_nil_r. unfold leaving, workers, creating_line.
    destruct (verbose o); [apply children_copies | apply children_nothing].
  - intros e H.
    repeat (apply in_app_or in H as [H|H]; [other_kind H|]).
    other_kind H.
Qed.

(** C5, as stated, fails: with [-v] a run that ends with status 0 prints
    three lines of diagnostics on the output stream before the total;
    when the stream is not a terminal, the one child writes a copy of
    the first of them as well. *)
Lemma verbose_counterexample :
  status verbose_argv sample_world = 0 /\
  stdout_of (trace verbose_argv sample_world)
  = [creating_line; waiting_line; predictions_line 2; total_line 2] /\
  stream false sample_world (trace verbose_argv sample_world)
  = [creating_line;
     creating_line; waiting_line; predictions_line 2; total_line 2].
Proof. repeat split; reflexivity. Qed.

(** C5, amended.  On a run that ends with status 0 the total is the
    last line on the output stream.  Without [-v] it is the only line
    there, and nothing goes to the error stream.  With [-v] the parent
    prints three lines of diagnostics before the total on the output
    stream: two while the children are created and awaited, one that
    repeats the total; when the stream is not a terminal, every child
    that leaves through [exit] has written, before them, its copy of
    the first of these lines, which was waiting in the buffer when the
    child was forked.  Of the diagnostics only the line about the
    loading goes to the error stream. *)
Theorem output_stream
  (argv : list string) (w : world) (o : options) (d_func : metric)
  (training_file : string) (testing_file : option string)
  (training testing : Dataset) (terminal : bool) :
  loaded argv w o d_func training_file testing_file training testing ->
  status argv w = 0 ->
  stream terminal w (trace argv w)
  = (if verbose o && negb terminal
     then repeat creating_line (leaving w (workers o))
     else []) ++
    (if verbose o
     then [creating_line; waiting_line;
           predictions_line (total_of w o testing);
           total_line (total_of w o testing)]
     else [total_line (total_of w o testing)]) /\
  filter is_stderr (trace argv w)
  = if verbose o then [Stderr loading_line] else [].
Proof.
  intros Hl Hs. unfold trace.
  rewrite (main_success _ _ _ _ _ _ _ _ Hl Hs). cbn [fst].
  assert (Hout : stdout_of
                   (loading o (Some training_file) testing_file ++
                    before_report w o d_func testing ++
                    report o (total_of w o testing))
                 = if verbose o
                   then [creating_line; waiting_line;
                         predictions_line (total_of w o testing);
                         total_line (total_of w o testing)]
                   else [total_line (total_of w o testing)]).
  { rewrite !stdout_of_app, stdout_loading, stdout_before_report,
      stdout_report.
    now destruct (verbose o). }
  split.
  - unfold stream. rewrite Hout. destruct terminal.
    + now rewrite andb_false_r.
    + rewrite children_output_run, andb_true_r.
      now destruct (verbose o).
  - rewrite !filter_app.
    rewrite (filter_none is_stderr (before_report _ _ _ _)).
    + rewrite (filter_none is_stderr (report _ _)).
      * rewrite !app_nil_r. unfold loading.
        now destruct (verbose o).
      * intros e H. unfold report in H.
        apply in_app_or in H as [H|[H|[]]]; [other_kind H | now subst].
    + intros e H. unfold before_report in H.
      repeat (apply in_app_or in H as [H|H]; [other_kind H|]).
      other_kind H.
Qed.

Lemma verbose_loaded :
  loaded verbose_argv sample_world verbose_options distance_euclidean
         "train" (Some "test") {| num_items := 3 |} {| num_items := 5 |}.
Proof.
  exists ["test"]. repeat split; reflexivity.
Qed.

Lemma output_stream_witness :
  loaded verbose_argv sample_world verbose_options distance_euclidean
         "train" (Some "test") {| num_items := 3 |} {| num_items := 5 |} /\
  status verbose_argv sample_world = 0 /\
  stream false sample_world (trace verbose_argv sample_world)
  = (if verbose verbose_options && negb false
     then repeat creating_line
                 (leaving sample_world (workers verbose_options))
     else []) ++
    (if verbose verbose_options
     then [creating_line; waiting_line;
           predictions_line (total_of sample_world verbose_options
                                      {| num_items := 5 |});
           total_line (total_of sample_world verbose_options
                                {| num_items := 5 |})]
     else [total_line (total_of sample_world verbose_options
                                {| num_items := 5 |})]).
Proof.
  split; [exact verbose_loaded|]. split; [reflexivity|].
  exact (proj1 (output_stream verbose_argv sample_world verbose_options
                  distance_euclidean "train" (Some "test")
                  {| num_items := 3 |} {| num_items := 5 |} false
                  verbose_loaded eq_refl)).
Defined.

(* ================================================================== *)
(** * A worker that does not report *)

Lemma collect_events_missing (fds : pipes) (n : nat) :
  forall i0 num_correct i,
    (i0 <= i < i0 + n)%nat -> fds i = [] ->
    In (Read i None) (collect_events fds n i0 num_correct).
Proof.
  induction n as [|n IH]; intros i0 nc i Hi Hf; [lia|].
  cbn [collect_events]. destruct (Nat.eq_dec i i0) as [->|Hne].
  - left. unfold read_int. now rewrite Hf.
  - right. right. apply IH; [lia | exact Hf].
Qed.

(** C3: what the code does.  When a worker is killed after it has read
    its assignment and no system call of the parent fails, [read] finds
    the end of the data, the parent goes on, prints a total on the
    output stream and ends with status 0; nothing is written to the
    error stream on its account. *)
Theorem missing_result_accepted
  (argv : list string) (w : world) (o : options) (d_func : metric)
  (training_file : string) (testing_file : option string)
  (training testing : Dataset) (i : nat) :
  loaded argv w o d_func training_file testing_file training testing ->
  (forall c, fails w c = false) ->
  (i < workers o)%nat ->
  worker w i = DiesBeforeReporting ->
  status argv w = 0 /\
  In (Read i None) (trace argv w) /\
  In (Stdout (total_line (total_of w o testing))) (trace argv w) /\
  filter is_stderr (trace argv w)
  = filter is_stderr (loading o (Some training_file) testing_file).
Proof.
  intros Hl Hno Hi Hw. unfold status, trace.
  assert (Hp : 0 <= num_procs o) by (unfold workers in Hi; lia).
  rewrite (main_undisturbed _ _ _ _ _ _ _ _ Hl Hp Hno). cbn [fst snd].
  split; [reflexivity|]. split; [|split].
  - apply in_or_app. right. apply in_or_app. left.
    unfold before_report. repeat (apply in_or_app; right).
    apply collect_events_missing; [unfold workers in Hi; lia|].
    now apply results_missing.
  - apply in_or_app. right. apply in_or_app. right.
    unfold report. apply in_or_app. right. now left.
  - rewrite !filter_app.
    rewrite (filter_none is_stderr (before_report _ _ _ _)).
    + rewrite (filter_none is_stderr (report _ _)); [now rewrite app_nil_r|].
      intros e H. unfold report in H. apply in_app_or in H as [H|[H|[]]];
        [other_kind H | now subst].
    + intros e H. unfold before_report in H.
      repeat (apply in_app_or in H as [H|H]; [other_kind H|]).
      other_kind H.
Qed.

Lemma crash_loaded :
  loaded sample_argv crash_world (with_procs 2) distance_euclidean
         "train" (Some "test") {| num_items := 3 |} {| num_items := 5 |}.
Proof.
  exists ["test"]. repeat split; reflexivity.
Qed.

Lemma missing_result_accepted_witness :
  loaded sample_argv crash_world (with_procs 2) distance_euclidean
         "train" (Some "test") {| num_items := 3 |} {| num_items := 5 |} /\
  (1 < workers (with_procs 2))%nat /\
  worker crash_world 1 = DiesBeforeReporting /\
  status sample_argv crash_world = 0 /\
  In (Read 1 None) (trace sample_argv crash_world).
Proof.
  assert (Hi : (1 < workers (with_procs 2))%nat) by (cbn; lia).
  split; [exact crash_loaded|]. split; [exact Hi|]. split; [reflexivity|].
  pose proof (missing_result_accepted
                sample_argv crash_world (with_procs 2) distance_euclidean
                "train" (Some "test")
                {| num_items := 3 |} {| num_items := 5 |} 1%nat
                crash_loaded (fun _ => eq_refl) Hi eq_refl) as H.
  exact (conj (proj1 H) (proj1 (proj2 H))).
Defined.

(** The run of the failing input of C3, in full: the first worker
    reports 3, the second reports nothing, and the parent adds the 3
    that is still in [num_correct] a second time and prints 6. *)
Example crash_run :
  main sample_argv crash_world
  = ([LoadDataset (Some "train"); LoadDataset (Some "test");
      Pipe 0; Fork 0 1 distance_euclidean;
      Pipe 1; Fork 1 1 distance_euclidean;
      Write 0 0; Write 0 3; CloseWrite 0;
      Write 1 3; Write 1 2; CloseWrite 1;
      Wait; Wait;
      Read 0 (Some 3); CloseRead 0; Read 1 None; CloseRead 1;
      Stdout (total_line 6)], 0).
Proof. reflexivity. Qed.

(* ================================================================== *)
(** * K and the size of the training set *)

Lemma oversized_loaded :
  loaded oversized_argv sample_world (with_K 5) distance_euclidean
         "train" (Some "test") {| num_items := 3 |} {| num_items := 5 |}.
Proof.
  exists ["test"]. repeat split; reflexivity.
Qed.

(** C7, as stated, fails: with [-K 5] and a training set of three items
    the run is not rejected.  The parent forks the worker with K = 5,
    writes it its assignment, prints a total and ends with status 0. *)
Lemma oversized_K_counterexample :
  loaded oversized_argv sample_world (with_K 5) distance_euclidean
         "train" (Some "test") {| num_items := 3 |} {| num_items := 5 |} /\
  num_items {| num_items := 3 |} < K (with_K 5) /\
  status oversized_argv sample_world = 0 /\
  forks_in (trace oversized_argv sample_world)
  = [Fork 0 5 distance_euclidean] /\
  writes_in (trace oversized_argv sample_world) = [Write 0 0; Write 0 5] /\
  filter is_stderr (trace oversized_argv sample_world) = [].
Proof.
  split; [exact oversized_loaded|]. repeat split; reflexivity.
Qed.

Lemma filter_loading (f : event -> bool) (o : options)
  (training_file testing_file : option string) :
  (forall s, f (Stderr s) = false) ->
  (forall file, f (LoadDataset file) = false) ->
  filter f (loading o training_file testing_file) = [].
Proof.
  intros H1 H2. unfold loading.
  destruct (verbose o); cbn; now rewrite ?H1, ?H2.
Qed.

Lemma filter_report (f : event -> bool) (o : options) (total_correct : Z) :
  (forall s, f (Stdout s) = false) ->
  filter f (report o total_correct) = [].
Proof.
  intros H. unfold report, said.
  destruct (verbose o); cbn; now rewrite ?H.
Qed.

(** C7, amended.  The parent does not compare K with the size of the
    training set.  Whatever K and the training set are, when the
    number of workers is not negative and no system call fails, it
    forks every worker with the K of the command line, writes every
    worker its slice, and ends with status 0. *)
Theorem K_not_validated
  (argv : list string) (w : world) (o : options) (d_func : metric)
  (training_file : string) (testing_file : option string)
  (training testing : Dataset) :
  loaded argv w o d_func training_file testing_file training testing ->
  0 <= num_procs o ->
  (forall c, fails w c = false) ->
  status argv w = 0 /\
  forks_in (trace argv w)
  = map (fun i => Fork i (K o) d_func) (seq 0 (workers o)) /\
  writes_in (trace argv w)
  = slice_writes 0 (slices (num_items testing) (num_procs o)).
Proof.
  intros Hl Hp Hno. unfold status, trace.
  rewrite (main_undisturbed _ _ _ _ _ _ _ _ Hl Hp Hno). cbn [fst snd].
  split; [reflexivity|]. split.
  - unfold forks_in. rewrite !filter_app.
    rewrite filter_loading, filter_report by reflexivity.
    rewrite app_nil_r. cbn [app].
    apply (eq_trans (forks_before_report w o d_func testing)).
    apply forks_spawn_events.
  - unfold writes_in. rewrite !filter_app.
    rewrite filter_loading, filter_report by reflexivity.
    rewrite app_nil_r. cbn [app].
    apply (eq_trans (writes_before_report w o d_func testing)).
    apply writes_dispatch_events.
Qed.

Lemma K_not_validated_witness :
  loaded oversized_argv sample_world (with_K 5) distance_euclidean
         "train" (Some "test") {| num_items := 3 |} {| num_items := 5 |} /\
  0 <= num_procs (with_K 5) /\
  num_items {| num_items := 3 |} < K (with_K 5) /\
  status oversized_argv sample_world = 0 /\
  forks_in (trace oversized_argv sample_world)
  = map (fun i => Fork i (K (with_K 5)) distance_euclidean)
        (seq 0 (workers (with_K 5))) /\
  writes_in (trace oversized_argv sample_world)
  = slice_writes 0 (slices (num_items {| num_items := 5 |})
                           (num_procs (with_K 5))).
Proof.
  assert (Hp : 0 <= num_procs (with_K 5)) by (cbn; lia).
  split; [exact oversized_loaded|]. split; [exact Hp|].
  split; [cbn; lia|].
  exact (K_not_validated oversized_argv sample_world (with_K 5)
           distance_euclidean "train" (Some "test")
           {| num_items := 3 |} {| num_items := 5 |}
           oversized_loaded Hp (fun _ => eq_refl)).
Defined.

(* ================================================================== *)
(** * The positional arguments *)

(** C8: what the code does with a single file name.  The test
    [optind >= argc] lets it through: the name is handed to
    [load_dataset] as the training file, and no diagnostic precedes the
    call. *)
Theorem single_operand_loaded
  (name file : string) (w : world) :
  is_option_arg file = false ->
  exists t, trace [name; file] w = LoadDataset (Some file) :: t.
Proof.
  intros Hf. unfold trace, main, main_body. cbn [hd tl].
  rewrite (getopt_loop_operand name file [] defaults Hf), bind_ret_l.
  cbn [fst snd run_operands hd_error]. unfold run_files.
  change (select_metric (dist_metric defaults)) with (ret distance_euclidean).
  rewrite bind_ret_l. unfold run_metric, load.
  change (verbose defaults) with false.
  destruct (load_dataset w (Some file)) as [training|].
  - destruct (load_dataset w None) as [testing|].
    + cbv beta iota delta [bind emit ret when].
      destruct (run_workers w defaults distance_euclidean testing) as [t r].
      destruct r; eexists; reflexivity.
    + eexists. reflexivity.
  - eexists. reflexivity.
Qed.

Lemma single_operand_loaded_witness :
  is_option_arg "train.bin" = false /\
  exists t, trace one_file_argv sample_world
            = LoadDataset (Some "train.bin") :: t.
Proof.
  split; [reflexivity|].
  exact (single_operand_loaded "classifier" "train.bin" sample_world eq_refl).
Defined.

(** The two runs around the failing input of C8: no file name at all is
    diagnosed; one file name reaches the loader, twice when the first
    file loads. *)
Example no_operand_run (w : world) :
  main ["classifier"] w
  = ([Stderr (String.append
                "Expecting training images file and test images file" nl)],
     1).
Proof. reflexivity. Qed.

Example one_operand_run :
  main ["classifier"; "train"] sample_world
  = ([LoadDataset (Some "train"); LoadDataset None;
      Stderr (String.append "The data set in (null) could not be loaded" nl)],
     1).
Proof. reflexivity. Qed.

(* ================================================================== *)
(** * The arguments of -K and -p *)

(** C9, as stated, fails: ["12abc"] is not a numeric string, and [atoi]
    converts its leading digits, so that the value is 12 and not 0. *)
Lemma atoi_counterexample :
  numeric_string "12abc" = false /\
  atoi "12abc" = 12 /\
  loaded ["classifier"; "-K"; "12abc"; "train"; "test"] sample_world
         (with_K 12) distance_euclidean "train" (Some "test")
         {| num_items := 3 |} {| num_items := 5 |}.
Proof.
  split; [reflexivity|]. split; [reflexivity|].
  exists ["test"]. repeat split; reflexivity.
Qed.

(** C9, amended.  Whatever string follows [-K] or [-p], the program
    reports no configuration error: the run is the one whose K, or
    whose number of workers, is the [atoi] of the string.  That value is
    0 when the string has no leading digits after optional white space
    and sign, and then, with [-p], the run creates no worker, prints the
    total 0 and ends with status 0. *)
Theorem non_numeric_accepted
  (name s training_file testing_file : string) (w : world) :
  is_option_arg training_file = false ->
  main [name; "-K"; s; training_file; testing_file] w
  = finish (run_files w (with_K (atoi s))
                      (Some training_file) (Some testing_file)) /\
  main [name; "-p"; s; training_file; testing_file] w
  = finish (run_files w (with_procs (atoi s))
                      (Some training_file) (Some testing_file)) /\
  (no_leading_digits s = true ->
   atoi s = 0 /\
   forall training testing,
     load_dataset w (Some training_file) = Some training ->
     load_dataset w (Some testing_file) = Some testing ->
     main [name; "-p"; s; training_file; testing_file] w
     = ([LoadDataset (Some training_file); LoadDataset (Some testing_file);
         Stdout (total_line 0)], 0)).
Proof.
  intros Hf.
  assert (HK : main [name; "-K"; s; training_file; testing_file] w
               = finish (run_files w (with_K (atoi s))
                           (Some training_file) (Some testing_file))).
  { unfold main, main_body. cbn [hd tl].
    change (getopt_loop name ["-K"; s; training_file; testing_file] defaults)
      with (getopt_loop name [training_file; testing_file]
                        (with_K (atoi s))).
    now rewrite (getopt_loop_operand _ _ _ _ Hf), bind_ret_l. }
  assert (Hp : main [name; "-p"; s; training_file; testing_file] w
               = finish (run_files w (with_procs (atoi s))
                           (Some training_file) (Some testing_file))).
  { unfold main, main_body. cbn [hd tl].
    change (getopt_loop name ["-p"; s; training_file; testing_file] defaults)
      with (getopt_loop name [training_file; testing_file]
                        (with_procs (atoi s))).
    now rewrite (getopt_loop_operand _ _ _ _ Hf), bind_ret_l. }
  split; [exact HK|]. split; [exact Hp|].
  intros Hs. pose proof (atoi_no_digits s Hs) as H0.
  split; [exact H0|]. intros training testing H1 H2.
  rewrite Hp, H0. unfold run_files.
  change (select_metric (dist_metric (with_procs 0)))
    with (ret distance_euclidean).
  rewrite bind_ret_l. unfold run_metric, load. rewrite H1, H2. reflexivity.
Qed.

Lemma non_numeric_accepted_witness :
  is_option_arg "train" = false /\
  no_leading_digits "abc" = true /\
  main ["classifier"; "-p"; "abc"; "train"; "test"] sample_world
  = ([LoadDataset (Some "train"); LoadDataset (Some "test");
      Stdout (total_line 0)], 0).
Proof.
  split; [reflexivity|]. split; [reflexivity|].
  exact (proj2 (proj2 (proj2 (non_numeric_accepted
                  "classifier" "abc" "train" "test" sample_world eq_refl))
                eq_refl)
               {| num_items := 3 |} {| num_items := 5 |} eq_refl eq_refl).
Defined.

(* ================================================================== *)
(** * The name of the metric *)

(** C4, as stated, fails: the empty string is an initial substring of
    both names, and the run is not rejected: it selects the euclidean
    distance and ends with status 0. *)
Lemma empty_metric_counterexample :
  is_prefix "" "euclidean" = true /\
  is_prefix "" "cosine" = true /\
  status ["classifier"; "-d"; ""; "train"; "test"] sample_world = 0 /\
  forks_in (trace ["classifier"; "-d"; ""; "train"; "test"] sample_world)
  = [Fork 0 1 distance_euclidean].
Proof. repeat split; reflexivity. Qed.

(** C4, amended.  A name that is an initial substring of ["euclidean"],
    the empty string included, selects the euclidean distance; any
    other name that is an initial substring of ["cosine"] selects the
    cosine distance; every other name is a fatal error: [perror] writes
    to the error stream, nothing is loaded and no worker is created, and
    the status is 1.  This holds for the name in the options however
    they were given, and so for the command line [-d s]. *)
Theorem metric_selection (s : string) :
  no_nul s = true ->
  (forall w o training_file testing_file,
      dist_metric o = s ->
      run_files w o training_file testing_file
      = if is_prefix s "euclidean" then
          run_metric w o distance_euclidean training_file testing_file
        else if is_prefix s "cosine" then
          run_metric w o distance_cosine training_file testing_file
        else ([Perror "Invalid distance metric"], Exited 1)) /\
  (forall name training_file testing_file w,
      is_option_arg training_file = false ->
      main [name; "-d"; s; training_file; testing_file] w
      = if is_prefix s "euclidean" then
          finish (run_metric w (with_metric s) distance_euclidean
                             (Some training_file) (Some testing_file))
        else if is_prefix s "cosine" then
          finish (run_metric w (with_metric s) distance_cosine
                             (Some training_file) (Some testing_file))
        else ([Perror "Invalid distance metric"], 1)).
Proof.
  intros Hs.
  assert (Hrun : forall w o training_file testing_file,
             dist_metric o = s ->
             run_files w o training_file testing_file
             = if is_prefix s "euclidean" then
                 run_metric w o distance_euclidean training_file testing_file
               else if is_prefix s "cosine" then
                 run_metric w o distance_cosine training_file testing_file
               else ([Perror "Invalid distance metric"], Exited 1)).
  { intros w o tf tsf Ho. unfold run_files.
    rewrite Ho, (select_metric_prefix s Hs).
    destruct (is_prefix s "euclidean"); [now rewrite bind_ret_l|].
    destruct (is_prefix s "cosine"); [now rewrite bind_ret_l | reflexivity]. }
  split; [exact Hrun|].
  intros name tf tsf w Hf. unfold main, main_body. cbn [hd tl].
  change (getopt_loop name ["-d"; s; tf; tsf] defaults)
    with (getopt_loop name [tf; tsf] (with_metric s)).
  rewrite (getopt_loop_operand _ _ _ _ Hf), bind_ret_l.
  cbn [fst snd run_operands hd_error].
  rewrite (Hrun w (with_metric s) _ _ eq_refl).
  destruct (is_prefix s "euclidean"); [reflexivity|].
  destruct (is_prefix s "cosine"); reflexivity.
Qed.

Lemma metric_selection_witness :
  no_nul "cosx" = true /\
  is_option_arg "train" = false /\
  main ["classifier"; "-d"; "cosx"; "train"; "test"] sample_world
  = ([Perror "Invalid distance metric"], 1).
Proof.
  split; [reflexivity|]. split; [reflexivity|].
  exact (proj2 (metric_selection "cosx" eq_refl)
               "classifier" "train" "test" sample_world eq_refl).
Defined.

(* ================================================================== *)
(** * The slices in closed form *)

Lemma distribute_loop_closed_form (n : Z) (k : nat) (N cur : Z) :
  loop_inv n N cur ->
  forall i, (i < k)%nat ->
    nth_error (distribute_loop k n N cur) i
    = Some (Z.min n (cur + Z.of_nat i * N),
            Z.min N (n - Z.min n (cur + Z.of_nat i * N))).
Proof.
  apply (distribute_loop_ind n
           (fun k N cur sl =>
              forall i, (i < k)%nat ->
                nth_error sl i
                = Some (Z.min n (cur + Z.of_nat i * N),
                        Z.min N (n - Z.min n (cur + Z.of_nat i * N))))).
  - intros; lia.
  - intros k' N' cur' sl Hinv Hle _ IH i Hi. unfold loop_inv in Hinv.
    destruct i as [|i]; cbn [nth_error].
    + f_equal. f_equal; lia.
    + rewrite IH by lia. rewrite Nat2Z.inj_succ, Z.mul_succ_l.
      f_equal. f_equal; f_equal; lia.
  - intros k' N' cur' Hinv Hlt i Hi. unfold loop_inv in Hinv.
    destruct i as [|i]; cbn [nth_error].
    + f_equal. f_equal; lia.
    + assert (Hr : nth_error (repeat (n, 0) k') i = Some (n, 0)).
      { rewrite nth_error_repeat; [reflexivity | lia]. }
      rewrite Hr. rewrite Nat2Z.inj_succ, Z.mul_succ_l.
      assert (0 <= Z.of_nat i * N') by nia.
      f_equal. f_equal; lia.
Qed.

(** X1.  The slice of worker [i] is [slice_at]: it starts at
    [min(n, i * ceil(n / p))] and holds [ceil(n / p)] items, or what is
    left of the testing set when that is less. *)
Theorem slices_closed_form (n p : Z) (i : nat) :
  0 <= n <= INT_MAX -> 1 <= p <= INT_MAX -> (i < Z.to_nat p)%nat ->
  nth_error (slices n p) i = Some (slice_at n (ceil_div n p) i).
Proof.
  intros Hn Hp Hi. unfold slices.
  pose proof (loop_inv_initial n p Hn ltac:(lia)) as Hinv.
  rewrite (initial_N_ceil n p Hn ltac:(lia)) in *.
  rewrite (distribute_loop_closed_form n _ _ 0 Hinv i Hi).
  reflexivity.
Qed.

Lemma slices_closed_form_witness :
  0 <= 5 <= INT_MAX /\ 1 <= 4 <= INT_MAX /\ (2 < Z.to_nat 4)%nat /\
  nth_error (slices 5 4) 2 = Some (slice_at 5 (ceil_div 5 4) 2).
Proof.
  assert (Hn : 0 <= 5 <= INT_MAX) by (unfold INT_MAX; lia).
  assert (Hp : 1 <= 4 <= INT_MAX) by (unfold INT_MAX; lia).
  assert (Hi : (2 < Z.to_nat 4)%nat) by (cbn; lia).
  split; [exact Hn|]. split; [exact Hp|]. split; [exact Hi|].
  exact (slices_closed_form 5 4 2 Hn Hp Hi).
Defined.

(** X2.  With at least as many workers as items (and at least one
    item), the first [n] workers get one item each, worker [i] item
    [i], and every other worker gets the empty slice at [n]. *)
Theorem more_workers_than_items (n p : Z) (i : nat) :
  1 <= n <= p -> p <= INT_MAX -> (i < Z.to_nat p)%nat ->
  nth_error (slices n p) i
  = Some (if Z.of_nat i <? n then (Z.of_nat i, 1) else (n, 0)).
Proof.
  intros Hn Hp Hi. unfold slices.
  pose proof (loop_inv_initial n p ltac:(lia) ltac:(lia)) as Hinv.
  rewrite (initial_N_ceil n p ltac:(lia) ltac:(lia)) in *.
  rewrite (distribute_loop_closed_form n _ _ 0 Hinv i Hi).
  assert (Hb : ceil_div n p = 1).
  { unfold ceil_div. symmetry.
    apply Z.div_unique with (r := n - 1); lia. }
  rewrite Hb, Z.mul_1_r, Z.add_0_l.
  destruct (Z.ltb_spec (Z.of_nat i) n); f_equal; f_equal; lia.
Qed.

Lemma more_workers_than_items_witness :
  1 <= 2 <= 4 /\ 4 <= INT_MAX /\ (3 < Z.to_nat 4)%nat /\
  nth_error (slices 2 4) 3
  = Some (if Z.of_nat 3 <? 2 then (Z.of_nat 3, 1) else (2, 0)).
Proof.
  assert (Hn : 1 <= 2 <= 4) by lia.
  assert (Hp : 4 <= INT_MAX) by (unfold INT_MAX; lia).
  assert (Hi : (3 < Z.to_nat 4)%nat) by (cbn; lia).
  split; [exact Hn|]. split; [exact Hp|]. split; [exact Hi|].
  exact (more_workers_than_items 2 4 3 Hn Hp Hi).
Defined.

(* ================================================================== *)
(** * Where a run stops *)

Lemma runs_done {A : Type} (t : list event) (a : A) :
  runs (t, Continue a) t [] a.
Proof. left. now rewrite app_nil_r. Qed.

Lemma runs_checked (w : world) (c : syscall) (e : event) (msg : string) :
  runs (checked w c e msg) [e] [] tt.
Proof.
  unfold checked. destruct (fails w c).
  - right. exists [], [e], msg. split; reflexivity.
  - apply runs_done.
Qed.

Lemma runs_bind {A B : Type} (m : proc A) (f : A -> proc B)
  (t t' extra : list event) (a : A) (b : B) :
  runs m t [] a -> runs (f a) t' extra b ->
  runs (bind m f) (t ++ t') extra b.
Proof.
  intros [->|(t1 & t2 & msg & -> & ->)].
  - rewrite app_nil_r.
    intros [E|(t1 & t2 & msg & E & ->)]; unfold bind; rewrite E.
    + left. now rewrite app_assoc.
    + right. exists (t ++ t1), t2, msg. now rewrite !app_assoc.
  - intros _. right. exists t1, (t2 ++ t'), msg.
    split; [reflexivity | now rewrite app_assoc].
Qed.

(** A computation that cannot stop, after one that can. *)
Lemma runs_bind_last {A B : Type} (m : proc A) (f : A -> proc B)
  (t extra : list event) (a : A) (b : B) :
  runs m t [] a -> f a = (extra, Continue b) -> runs (bind m f) t extra b.
Proof.
  intros [->|(t1 & t2 & msg & -> & ->)] E.
  - rewrite app_nil_r. unfold bind. rewrite E. now left.
  - right. exists t1, t2, msg. split; reflexivity.
Qed.

Lemma spawn_loop_runs (w : world) (K : Z) (d_func : metric) (n : nat) :
  forall i, runs (spawn_loop w K d_func n i) (spawn_events K d_func n i)
                 [] tt.
Proof.
  induction n as [|n IH]; intros i; [apply (runs_done [])|].
  cbn [spawn_loop spawn_events].
  apply (runs_bind _ _ [Pipe i] _ _ tt); [apply runs_checked|].
  apply (runs_bind _ _ [Fork i K d_func] _ _ tt); [apply runs_checked|].
  apply IH.
Qed.

Lemma distribute_runs (w : world) (num_items : Z) (n : nat) :
  forall i N cur_start fds,
    runs (distribute w num_items n i N cur_start fds)
         (dispatch_events i (distribute_loop n num_items N cur_start)) []
         (dispatch_pipes i (distribute_loop n num_items N cur_start) fds).
Proof.
  induction n as [|n IH]; intros i N cur fds; [apply (runs_done [])|].
  cbn [distribute distribute_loop dispatch_events dispatch_pipes].
  apply (runs_bind _ _ [Write i cur] _ _ tt); [apply runs_checked|].
  apply (runs_bind _ _ [Write i (adjust_N num_items cur N)] _ _ tt);
    [apply runs_checked|].
  apply (runs_bind _ _ [CloseWrite i] _ _ tt); [apply runs_checked|].
  apply IH.
Qed.

Lemma wait_loop_runs (w : world) (n : nat) :
  forall i, runs (wait_loop w n i) (repeat Wait n) [] tt.
Proof.
  induction n as [|n IH]; intros i; [apply (runs_done [])|].
  cbn [wait_loop repeat].
  apply (runs_bind _ _ [Wait] _ _ tt); [apply runs_checked | apply IH].
Qed.

Lemma collect_runs (w : world) (fds : pipes) (n : nat) :
  forall i total_correct num_correct,
    runs (collect w fds n i total_correct num_correct)
         (collect_events fds n i num_correct) []
         (collect_total fds n i total_correct num_correct).
Proof.
  induction n as [|n IH]; intros i total nc; [apply (runs_done [])|].
  cbn [collect collect_events collect_total].
  destruct (fails w (SysRead i)).
  - right. eexists [], _, "Failed reading result from child".
    split; reflexivity.
  - destruct (read_int fds i nc) as [got nc'] eqn:R. cbn [fst snd].
    apply (runs_bind (emit (Read i got)) _ [Read i got] _ _ tt);
      [apply runs_done|].
    apply (runs_bind _ _ [CloseRead i] _ _ tt); [apply runs_checked|].
    apply IH.
Qed.

(** From the creation of the children on, the parent either does all
    of [before_report], prints the total and returns 0, or stops with
    [perror] and status 1 somewhere in [before_report]. *)
Lemma run_workers_runs (w : world) (o : options) (d_func : metric)
  (testing : Dataset) :
  0 <= num_procs o ->
  runs (run_workers w o d_func testing)
       (before_report w o d_func testing)
       (report o (total_of w o testing)) 0.
Proof.
  intros Hp. unfold run_workers, before_report, total_of, results.
  rewrite !when_said.
  eapply runs_bind; [apply runs_done|].
  rewrite (declare_fds_defined _ Hp), bind_ret_l.
  eapply runs_bind; [apply spawn_loop_runs|].
  eapply runs_bind; [apply distribute_runs|].
  eapply runs_bind; [apply runs_done|].
  eapply runs_bind; [apply wait_loop_runs|].
  eapply runs_bind_last; [apply collect_runs|].
  unfold report. rewrite when_said. now destruct (verbose o).
Qed.

Lemma getopt_fails_lines {A : Type} (name what : string) (c : ascii) :
  @getopt_fails A name what c
  = ([Stderr (getopt_line name what c); Stderr (usage_line name)], Exited 1).
Proof. reflexivity. Qed.

(** The option loop either returns, having written nothing, or writes
    the line of [getopt] and the usage line and exits with status 1. *)
Lemma getopt_loop_outcome (name : string) (n : nat) :
  forall args o,
    (List.length args <= n)%nat ->
    (exists x, getopt_loop name args o = ret x) \/
    (exists what c,
        (what = requires_argument \/ what = invalid_option) /\
        getopt_loop name args o
        = ([Stderr (getopt_line name what c); Stderr (usage_line name)],
           Exited 1)).
Proof.
  induction n as [|n IH]; intros args o Hlen.
  - destruct args; [left; eexists; reflexivity | cbn in Hlen; lia].
  - destruct args as [|a rest]; [left; eexists; reflexivity|].
    cbn [List.length] in Hlen. rewrite getopt_loop_cons.
    destruct (is_option_arg a); [|left; eexists; reflexivity].
    destruct (String.eqb a "--"); [left; eexists; reflexivity|].
    destruct (scan_cluster (option_letters a) o) as [o'|c o'|c].
    + apply IH. lia.
    + destruct rest as [|optarg rest'].
      * right. exists requires_argument, c. split; [now left|].
        apply getopt_fails_lines.
      * apply IH. cbn [List.length] in Hlen. lia.
    + right. exists invalid_option, c. split; [now right|].
      apply getopt_fails_lines.
Qed.

Lemma no_total_nil : no_total [].
Proof. intros s []. Qed.

Lemma no_total_beginning (t1 t2 : list event) :
  no_total (t1 ++ t2) -> no_total t1.
Proof.
  intros H s Hs. apply H. rewrite stdout_of_app. apply in_or_app. now left.
Qed.

Lemma no_total_before_report (w : world) (o : options) (d_func : metric)
  (testing : Dataset) (training_file testing_file : option string) :
  no_total (loading o training_file testing_file ++
            before_report w o d_func testing).
Proof.
  intros s. rewrite stdout_of_app, stdout_loading, stdout_before_report.
  destruct (verbose o); cbn; intuition.
Qed.

Section Outcome.

Variables (argv : list string) (w : world) (o : options) (d_func : metric).
Variables (training_file : string) (testing_file : option string).
Variables (training testing : Dataset).

Hypothesis Hloaded :
  loaded argv w o d_func training_file testing_file training testing.

(** Once the datasets are loaded, and with a number of workers that is
    not negative, there are two ways for [main] to end. *)
Lemma main_loaded_cases :
  0 <= num_procs o ->
  main argv w
  = (loading o (Some training_file) testing_file ++
     before_report w o d_func testing ++
     report o (total_of w o testing), 0) \/
  exists t1 t2 msg,
    main argv w
    = (loading o (Some training_file) testing_file ++ t1 ++ [Perror msg], 1)
    /\ before_report w o d_func testing = t1 ++ t2.
Proof.
  intros Hp. unfold main. rewrite (main_body_loaded _ _ _ _ _ _ _ _ Hloaded).
  destruct (run_workers_runs w o d_func testing Hp)
    as [E|(t1 & t2 & msg & E & Hb)]; unfold bind; rewrite E.
  - left. cbn [finish]. now rewrite app_assoc.
  - right. exists t1, t2, msg. split; [reflexivity | exact Hb].
Qed.

End Outcome.

(** X3.  With a number of workers that is not negative, every run
    that [main] ends with a status other than 0 after it has loaded the
    datasets has status 1 and ends with a [perror]: up to there the
    parent has done a beginning of what it does on a run that goes
    through, and nothing else. *)
Theorem failure_after_loading
  (argv : list string) (w : world) (o : options) (d_func : metric)
  (training_file : string) (testing_file : option string)
  (training testing : Dataset) :
  loaded argv w o d_func training_file testing_file training testing ->
  0 <= num_procs o ->
  status argv w <> 0 ->
  exists t1 t2 msg,
    main argv w
    = (loading o (Some training_file) testing_file ++ t1 ++ [Perror msg], 1)
    /\ before_report w o d_func testing = t1 ++ t2.
Proof.
  intros Hl Hp Hs.
  destruct (main_loaded_cases _ _ _ _ _ _ _ _ Hl Hp) as [E|H]; [|exact H].
  unfold status in Hs. rewrite E in Hs. now elim Hs.
Qed.

(** X4.  Every run whose number of workers is not negative ends with
    status 0 or with status 1; when it ends with status 1, the last
    thing the parent does is to write a diagnostic to the error stream,
    and it has printed no total: of its own lines, at most the two of
    [-v] are on the output stream. *)
Theorem failure_diagnosed (argv : list string) (w : world) :
  workers_not_negative argv ->
  status argv w = 0 \/
  (status argv w = 1 /\
   exists t e,
     trace argv w = t ++ [e] /\ is_stderr e = true /\ no_total t).
Proof.
  intros Hdefined.
  destruct (getopt_loop_outcome (hd "" argv) _ (tl argv) defaults (le_n _))
    as [[[o ops] E]|(what & c & _ & E)].
  2: { right. unfold status, trace, main, main_body. rewrite E.
       split; [reflexivity|].
       exists [Stderr (getopt_line (hd "" argv) what c)],
              (Stderr (usage_line (hd "" argv))).
       repeat split. intros s []. }
  destruct ops as [|tf rest].
  { right. unfold status, trace, main, main_body.
    rewrite E, bind_ret_l. split; [reflexivity|].
    exists [], (Stderr expecting_line). repeat split. apply no_total_nil. }
  destruct (select_metric_result (dist_metric o)) as [[d Ed]|Ed].
  2: { right. unfold status, trace, main, main_body.
       rewrite E, bind_ret_l. cbn [fst snd run_operands].
       unfold run_files. rewrite Ed. split; [reflexivity|].
       exists [], (Perror "Invalid distance metric").
       repeat split. apply no_total_nil. }
  destruct (load_dataset w (Some tf)) as [training|] eqn:L1.
  2: { right. unfold status, trace, main, main_body.
       rewrite E, bind_ret_l. cbn [fst snd run_operands].
       unfold run_files. rewrite Ed, bind_ret_l.
       unfold run_metric, load. rewrite L1.
       destruct (verbose o); (split; [reflexivity|]).
       - exists [Stderr loading_line; LoadDataset (Some tf)],
                (Stderr (not_loaded_line (Some tf))).
         repeat split. intros s [].
       - exists [LoadDataset (Some tf)],
                (Stderr (not_loaded_line (Some tf))).
         repeat split. intros s []. }
  destruct (load_dataset w (hd_error rest)) as [testing|] eqn:L2.
  2: { right. unfold status, trace, main, main_body.
       rewrite E, bind_ret_l. cbn [fst snd run_operands].
       unfold run_files. rewrite Ed, bind_ret_l.
       unfold run_metric, load. rewrite L1, L2.
       destruct (verbose o); (split; [reflexivity|]).
       - exists [Stderr loading_line; LoadDataset (Some tf);
                 LoadDataset (hd_error rest)],
                (Stderr (not_loaded_line (hd_error rest))).
         repeat split. intros s [].
       - exists [LoadDataset (Some tf); LoadDataset (hd_error rest)],
                (Stderr (not_loaded_line (hd_error rest))).
         repeat split. intros s []. }
  assert (Hl : loaded argv w o d tf (hd_error rest) training testing)
    by (exists rest; repeat split; assumption).
  destruct (main_loaded_cases _ _ _ _ _ _ _ _ Hl (Hdefined o _ E))
    as [Em|(t1 & t2 & msg & Em & Hb)]; unfold status, trace; rewrite Em.
  - now left.
  - right. split; [reflexivity|].
    exists (loading o (Some tf) (hd_error rest) ++ t1), (Perror msg).
    cbn [fst]. split; [now rewrite app_assoc|]. split; [reflexivity|].
    apply (no_total_beginning _ t2). rewrite <- app_assoc, <- Hb.
    apply no_total_before_report.
Qed.

Lemma sample_workers_not_negative : workers_not_negative sample_argv.
Proof.
  intros o operands E. vm_compute in E. injection E as <- _.
  cbn. lia.
Qed.

Lemma failure_diagnosed_witness :
  workers_not_negative sample_argv /\
  (status sample_argv fork_world = 0 \/
   (status sample_argv fork_world = 1 /\
    exists t e,
      trace sample_argv fork_world = t ++ [e] /\
      is_stderr e = true /\ no_total t)).
Proof.
  split; [exact sample_workers_not_negative|].
  exact (failure_diagnosed sample_argv fork_world
           sample_workers_not_negative).
Defined.

(** X5.  A run that ends with status 0 is made of six phases in this
    order: both datasets are loaded; a pipe is created and a child
    forked for each worker; each worker is written its start index and
    its count and the write end of its pipe is closed; [wait] returns
    once for each worker; each worker's pipe is read and closed; the
    total is printed.  No phase starts before the one before it is
    over. *)
Theorem successful_run (argv : list string) (w : world) :
  status argv w = 0 ->
  exists o d_func training_file testing_file training testing,
    loaded argv w o d_func training_file testing_file training testing /\
    trace argv w
    = loading o (Some training_file) testing_file ++
      said (verbose o) "- Creating children ..." ++
      spawn_events (K o) d_func (workers o) 0 ++
      dispatch_events 0 (slices (num_items testing) (num_procs o)) ++
      said (verbose o) "- Waiting for children..." ++
      repeat Wait (workers o) ++
      collect_events (results w o testing) (workers o) 0 (indeterminate w) ++
      report o (total_of w o testing).
Proof.
  intros Hs.
  destruct (success_loaded argv w Hs) as (o & d & tf & tsf & tr & te & Hl).
  exists o, d, tf, tsf, tr, te. split; [exact Hl|].
  unfold trace. rewrite (main_success _ _ _ _ _ _ _ _ Hl Hs). cbn [fst].
  unfold before_report, workers. now rewrite <- !app_assoc.
Qed.

Lemma successful_run_witness :
  status sample_argv sample_world = 0 /\
  exists o d_func training_file testing_file training testing,
    loaded sample_argv sample_world o d_func training_file testing_file
           training testing /\
    trace sample_argv sample_world
    = loading o (Some training_file) testing_file ++
      said (verbose o) "- Creating children ..." ++
      spawn_events (K o) d_func (workers o) 0 ++
      dispatch_events 0 (slices (num_items testing) (num_procs o)) ++
      said (verbose o) "- Waiting for children..." ++
      repeat Wait (workers o) ++
      collect_events (results sample_world o testing) (workers o) 0
                     (indeterminate sample_world) ++
      report o (total_of sample_world o testing).
Proof.
  split; [reflexivity|].
  exact (successful_run sample_argv sample_world eq_refl).
Defined.

Lemma fork_world_loaded :
  loaded sample_argv fork_world (with_procs 2) distance_euclidean
         "train" (Some "test") {| num_items := 3 |} {| num_items := 5 |}.
Proof.
  exists ["test"]. repeat split; reflexivity.
Qed.

Lemma failure_after_loading_witness :
  loaded sample_argv fork_world (with_procs 2) distance_euclidean
         "train" (Some "test") {| num_items := 3 |} {| num_items := 5 |} /\
  0 <= num_procs (with_procs 2) /\
  status sample_argv fork_world <> 0 /\
  exists t1 t2 msg,
    main sample_argv fork_world
    = (loading (with_procs 2) (Some "train") (Some "test") ++
       t1 ++ [Perror msg], 1)
    /\ before_report fork_world (with_procs 2) distance_euclidean
                     {| num_items := 5 |} = t1 ++ t2.
Proof.
  assert (Hs : status sample_argv fork_world <> 0)
    by (vm_compute; discriminate).
  assert (Hp : 0 <= num_procs (with_procs 2)) by (cbn; lia).
  split; [exact fork_world_loaded|]. split; [exact Hp|].
  split; [exact Hs|].
  exact (failure_after_loading sample_argv fork_world (with_procs 2)
           distance_euclidean "train" (Some "test")
           {| num_items := 3 |} {| num_items := 5 |} fork_world_loaded
           Hp Hs).
Defined.

(* ================================================================== *)
(** * A [fork] that fails *)

Lemma spawn_loop_fork_fails (w : world) (K : Z) (d_func : metric) (n : nat) :
  forall i0 i,
    (i0 <= i < i0 + n)%nat ->
    (forall j, (i0 <= j < i)%nat ->
               fails w (SysPipe j) = false /\ fails w (SysFork j) = false) ->
    fails w (SysPipe i) = false ->
    fails w (SysFork i) = true ->
    spawn_loop w K d_func n i0
    = (spawn_events K d_func (i - i0) i0 ++
       [Pipe i; Perror "Failed forking child process"], Exited 1).
Proof.
  induction n as [|n IH]; intros i0 i Hi Hbefore Hp Hf; [lia|].
  cbn [spawn_loop]. unfold checked.
  destruct (Nat.eq_dec i i0) as [->|Hne].
  - rewrite Hp, Hf, Nat.sub_diag. reflexivity.
  - destruct (Hbefore i0 ltac:(lia)) as [Hp0 Hf0]. rewrite Hp0, Hf0.
    replace (i - i0)%nat with (S (i - S i0)) by lia.
    cbn [spawn_events].
    assert (Hr : (S i0 <= i < S i0 + n)%nat) by lia.
    assert (Hb : forall j, (S i0 <= j < i)%nat ->
                   fails w (SysPipe j) = false /\
                   fails w (SysFork j) = false)
      by (intros j Hj; apply Hbefore; lia).
    rewrite (IH (S i0) i Hr Hb Hp Hf). reflexivity.
Qed.

(** X6.  When the [fork] of worker [i] is the first call to fail, the
    parent exits with status 1 right after [perror]: by then it has
    forked the [i] workers before it, and it has written no assignment
    to any of them and waited for none. *)
Theorem fork_failure
  (argv : list string) (w : world) (o : options) (d_func : metric)
  (training_file : string) (testing_file : option string)
  (training testing : Dataset) (i : nat) :
  loaded argv w o d_func training_file testing_file training testing ->
  (i < workers o)%nat ->
  (forall j, (j < i)%nat ->
             fails w (SysPipe j) = false /\ fails w (SysFork j) = false) ->
  fails w (SysPipe i) = false ->
  fails w (SysFork i) = true ->
  main argv w
  = (loading o (Some training_file) testing_file ++
     said (verbose o) "- Creating children ..." ++
     spawn_events (K o) d_func i 0 ++
     [Pipe i; Perror "Failed forking child process"], 1) /\
  forks_in (trace argv w) = map (fun j => Fork j (K o) d_func) (seq 0 i) /\
  writes_in (trace argv w) = [] /\
  waits_in (trace argv w) = 0%nat.
Proof.
  intros Hl Hi Hbefore Hp Hf.
  assert (E : main argv w
              = (loading o (Some training_file) testing_file ++
                 said (verbose o) "- Creating children ..." ++
                 spawn_events (K o) d_func i 0 ++
                 [Pipe i; Perror "Failed forking child process"], 1)).
  { unfold main. rewrite (main_body_loaded _ _ _ _ _ _ _ _ Hl).
    unfold run_workers. rewrite when_said.
    rewrite declare_fds_defined by (unfold workers in Hi; lia).
    rewrite (bind_ret_l tt).
    assert (Hr : (0 <= i < 0 + Z.to_nat (num_procs o))%nat)
      by (unfold workers in Hi; lia).
    assert (Hb : forall j, (0 <= j < i)%nat ->
                   fails w (SysPipe j) = false /\
                   fails w (SysFork j) = false)
      by (intros j Hj; apply Hbefore; lia).
    rewrite (spawn_loop_fork_fails w (K o) d_func _ 0 i Hr Hb Hp Hf).
    rewrite Nat.sub_0_r. reflexivity. }
  split; [exact E|]. unfold trace, forks_in, writes_in, waits_in.
  rewrite E. cbn [fst]. rewrite !filter_app.
  rewrite !filter_loading by reflexivity.
  rewrite !(filter_none _ (said _ _)) by (intros e H; other_kind H).
  rewrite (filter_none is_write (spawn_events _ _ _ _))
    by (intros e H; other_kind H).
  rewrite (filter_none is_wait (spawn_events _ _ _ _))
    by (intros e H; other_kind H).
  cbn [app filter is_fork is_write is_wait List.length].
  rewrite app_nil_r. split; [apply forks_spawn_events|].
  split; reflexivity.
Qed.

Lemma fork_failure_witness :
  loaded sample_argv fork_world (with_procs 2) distance_euclidean
         "train" (Some "test") {| num_items := 3 |} {| num_items := 5 |} /\
  (1 < workers (with_procs 2))%nat /\
  fails fork_world (SysPipe 1) = false /\
  fails fork_world (SysFork 1) = true /\
  main sample_argv fork_world
  = ([LoadDataset (Some "train"); LoadDataset (Some "test");
      Pipe 0; Fork 0 1 distance_euclidean;
      Pipe 1; Perror "Failed forking child process"], 1).
Proof.
  assert (Hi : (1 < workers (with_procs 2))%nat) by (cbn; lia).
  assert (Hb : forall j, (j < 1)%nat ->
                 fails fork_world (SysPipe j) = false /\
                 fails fork_world (SysFork j) = false).
  { intros [|j] Hj; [split; reflexivity | lia]. }
  split; [exact fork_world_loaded|]. split; [exact Hi|].
  split; [reflexivity|]. split; [reflexivity|].
  exact (proj1 (fork_failure sample_argv fork_world (with_procs 2)
                  distance_euclidean "train" (Some "test")
                  {| num_items := 3 |} {| num_items := 5 |} 1%nat
                  fork_world_loaded Hi Hb eq_refl eq_refl)).
Defined.

(* ================================================================== *)
(** * One pipe for both directions *)

Lemma collect_events_delivers (fds : pipes) (n : nat) :
  forall i0 num_correct i v q,
    (i0 <= i < i0 + n)%nat -> fds i = v :: q ->
    In (Read i (Some v)) (collect_events fds n i0 num_correct).
Proof.
  induction n as [|n IH]; intros i0 nc i v q Hi Hf; [lia|].
  cbn [collect_events]. destruct (Nat.eq_dec i i0) as [->|Hne].
  - left. unfold read_int. now rewrite Hf.
  - right. right. apply (IH _ _ i v q); [lia | exact Hf].
Qed.

Lemma results_unread (w : world) (o : options) (testing : Dataset)
  (i : nat) (s c : Z) :
  worker w i = DiesBeforeReading ->
  nth_error (slices (num_items testing) (num_procs o)) i = Some (s, c) ->
  results w o testing i = [s; c].
Proof.
  intros Hw Hn. unfold results, after_children. rewrite Hw.
  exact (dispatch_pipes_slice _ 0 no_data i s c Hn).
Qed.

(** X7.  The parent reads a worker's result from the pipe it wrote the
    assignment to.  When a worker terminates before it has read its
    assignment and no call of the parent fails, what the parent reads
    as this worker's count is the start index it wrote itself, and the
    run ends with status 0. *)
Theorem assignment_read_back
  (argv : list string) (w : world) (o : options) (d_func : metric)
  (training_file : string) (testing_file : option string)
  (training testing : Dataset) (i : nat) (start count : Z) :
  loaded argv w o d_func training_file testing_file training testing ->
  (forall c, fails w c = false) ->
  worker w i = DiesBeforeReading ->
  nth_error (slices (num_items testing) (num_procs o)) i
  = Some (start, count) ->
  status argv w = 0 /\ In (Read i (Some start)) (trace argv w).
Proof.
  intros Hl Hno Hw Hn.
  assert (Hi : (i < Z.to_nat (num_procs o))%nat).
  { assert (Hsome : nth_error (slices (num_items testing) (num_procs o)) i
                    <> None) by (rewrite Hn; discriminate).
    apply nth_error_Some in Hsome.
    unfold slices in Hsome. now rewrite distribute_loop_length in Hsome. }
  assert (Hp : 0 <= num_procs o) by lia.
  unfold status, trace.
  rewrite (main_undisturbed _ _ _ _ _ _ _ _ Hl Hp Hno). cbn [fst snd].
  split; [reflexivity|].
  apply in_or_app. right. apply in_or_app. left.
  unfold before_report. repeat (apply in_or_app; right).
  apply (collect_events_delivers _ _ _ _ i start [count]); [lia|].
  now apply results_unread.
Qed.

Lemma unread_world_loaded :
  loaded sample_argv unread_world (with_procs 2) distance_euclidean
         "train" (Some "test") {| num_items := 3 |} {| num_items := 5 |}.
Proof.
  exists ["test"]. repeat split; reflexivity.
Qed.

Lemma assignment_read_back_witness :
  loaded sample_argv unread_world (with_procs 2) distance_euclidean
         "train" (Some "test") {| num_items := 3 |} {| num_items := 5 |} /\
  worker unread_world 1 = DiesBeforeReading /\
  nth_error (slices 5 2) 1 = Some (3, 2) /\
  status sample_argv unread_world = 0 /\
  In (Read 1 (Some 3)) (trace sample_argv unread_world).
Proof.
  split; [exact unread_world_loaded|]. split; [reflexivity|].
  split; [reflexivity|].
  exact (assignment_read_back sample_argv unread_world (with_procs 2)
           distance_euclidean "train" (Some "test")
           {| num_items := 3 |} {| num_items := 5 |} 1%nat 3 2
           unread_world_loaded (fun _ => eq_refl) eq_refl eq_refl).
Defined.

(* ================================================================== *)
(** * A dataset that cannot be loaded *)

(** X8.  When the training file cannot be loaded, the parent names it
    on the error stream and exits with status 1 without trying the
    testing file; when the testing file cannot be loaded, it names that
    one and exits with status 1.  In both cases no pipe is created and
    no child is forked. *)
Theorem load_failure
  (argv : list string) (w : world) (o : options) (d_func : metric)
  (training_file : string) (rest : list string) :
  getopt_loop (hd "" argv) (tl argv) defaults
  = ret (o, training_file :: rest) ->
  select_metric (dist_metric o) = ret d_func ->
  (load_dataset w (Some training_file) = None ->
   main argv w
   = ((if verbose o then [Stderr loading_line] else []) ++
      [LoadDataset (Some training_file);
       Stderr (not_loaded_line (Some training_file))], 1)) /\
  (forall training,
      load_dataset w (Some training_file) = Some training ->
      load_dataset w (hd_error rest) = None ->
      main argv w
      = (loading o (Some training_file) (hd_error rest) ++
         [Stderr (not_loaded_line (hd_error rest))], 1)).
Proof.
  intros Hp Hm.
  assert (E : main argv w
              = finish (run_metric w o d_func (Some training_file)
                                   (hd_error rest))).
  { unfold main, main_body. rewrite Hp, bind_ret_l.
    cbn [fst snd run_operands]. unfold run_files.
    now rewrite Hm, bind_ret_l. }
  split.
  - intros L1. rewrite E. unfold run_metric, load. rewrite L1.
    now destruct (verbose o).
  - intros training L1 L2. rewrite E. unfold run_metric, load, loading.
    rewrite L1, L2. now destruct (verbose o).
Qed.

Lemma load_failure_witness :
  getopt_loop "classifier" ["train"; "test"] defaults
  = ret (defaults, ["train"; "test"]) /\
  select_metric (dist_metric defaults) = ret distance_euclidean /\
  load_dataset empty_world (Some "train") = None /\
  main ["classifier"; "train"; "test"] empty_world
  = ([LoadDataset (Some "train");
      Stderr (not_loaded_line (Some "train"))], 1).
Proof.
  split; [reflexivity|]. split; [reflexivity|]. split; [reflexivity|].
  exact (proj1 (load_failure ["classifier"; "train"; "test"] empty_world
                  defaults distance_euclidean "train" ["test"]
                  eq_refl eq_refl) eq_refl).
Defined.

(* ================================================================== *)
(** * The command line *)

(** X9.  When [getopt] rejects the command line, the run consists of
    two lines on the error stream, the complaint of [getopt] about an
    option letter and the usage line that [usage] prints with the name
    the program was called by, and ends with status 1: no file is
    loaded. *)
Theorem rejected_command_line
  (argv : list string) (w : world) (t : list event) (s : Z) :
  getopt_loop (hd "" argv) (tl argv) defaults = (t, Exited s) ->
  exists what c,
    (what = requires_argument \/ what = invalid_option) /\
    main argv w
    = ([Stderr (getopt_line (hd "" argv) what c);
        Stderr (usage_line (hd "" argv))], 1).
Proof.
  intros E.
  destruct (getopt_loop_outcome (hd "" argv) _ (tl argv) defaults (le_n _))
    as [[x Ex]|(what & c & Hw & Ex)].
  - rewrite Ex in E. discriminate.
  - exists what, c. split; [exact Hw|].
    unfold main, main_body. rewrite Ex. reflexivity.
Qed.

Lemma rejected_command_line_witness :
  getopt_loop "classifier" ["-x"; "train"; "test"] defaults
  = ([Stderr (getopt_line "classifier" invalid_option "x");
      Stderr (usage_line "classifier")], Exited 1) /\
  exists what c,
    (what = requires_argument \/ what = invalid_option) /\
    main ["classifier"; "-x"; "train"; "test"] sample_world
    = ([Stderr (getopt_line "classifier" what c);
        Stderr (usage_line "classifier")], 1).
Proof.
  split; [reflexivity|].
  exact (rejected_command_line ["classifier"; "-x"; "train"; "test"]
           sample_world _ 1 eq_refl).
Defined.

Lemma takes_argument_cases (c : ascii) :
  takes_argument c = true ->
  c = "K"%char \/ c = "d"%char \/ c = "p"%char.
Proof.
  unfold takes_argument. intros H.
  destruct (Ascii.eqb_spec c "K"); [now left|].
  destruct (Ascii.eqb_spec c "d"); [now right; left|].
  destruct (Ascii.eqb_spec c "p"); [now right; right | discriminate].
Qed.

Lemma getopt_loop_pair (name : string) (c : ascii) (optarg : string)
  (rest : list string) (o : options) :
  takes_argument c = true ->
  getopt_loop name (option_pair c optarg ++ rest) o
  = getopt_loop name rest (set_option c optarg o).
Proof.
  intros H. destruct (takes_argument_cases c H) as [ -> | [ -> | -> ] ];
    reflexivity.
Qed.

(** X10.  The order of two options with arguments does not matter when
    their letters differ, and of two options with the same letter the
    later one wins. *)
Theorem options_compose
  (name : string) (c c' : ascii) (x y : string) (rest : list string)
  (o : options) :
  takes_argument c = true -> takes_argument c' = true ->
  (c <> c' ->
   getopt_loop name (option_pair c x ++ option_pair c' y ++ rest) o
   = getopt_loop name (option_pair c' y ++ option_pair c x ++ rest) o) /\
  getopt_loop name (option_pair c x ++ option_pair c y ++ rest) o
  = getopt_loop name (option_pair c y ++ rest) o.
Proof.
  intros Hc Hc'. rewrite !getopt_loop_pair by assumption. split.
  - intros Hne. f_equal.
    destruct (takes_argument_cases c Hc) as [ -> | [ -> | -> ] ];
      destruct (takes_argument_cases c' Hc') as [ -> | [ -> | -> ] ];
      solve [reflexivity | now elim Hne].
  - f_equal. destruct (takes_argument_cases c Hc) as [ -> | [ -> | -> ] ];
      reflexivity.
Qed.

Lemma options_compose_witness :
  takes_argument "K" = true /\ takes_argument "p" = true /\
  getopt_loop "classifier"
    (option_pair "K" "3" ++ option_pair "p" "2" ++ ["train"; "test"])
    defaults
  = getopt_loop "classifier"
      (option_pair "p" "2" ++ option_pair "K" "3" ++ ["train"; "test"])
      defaults.
Proof.
  split; [reflexivity|]. split; [reflexivity|].
  refine (proj1 (options_compose "classifier" "K" "p" "3" "2"
                   ["train"; "test"] defaults eq_refl eq_refl) _).
  discriminate.
Defined.

(* ================================================================== *)
(** * The total and the size of the testing set *)

Lemma slices_sum (n p : Z) :
  0 <= n <= INT_MAX -> 1 <= p <= INT_MAX ->
  sum_Z (slice_sizes (slices n p)) = n.
Proof.
  intros Hn Hp. unfold slices.
  pose proof (loop_inv_initial n p Hn ltac:(lia)) as Hinv.
  rewrite (distribute_loop_sum n _ _ 0 Hinv).
  rewrite Z2Nat.id by lia. rewrite initial_N_ceil by lia.
  pose proof (ceil_div_bounds n p ltac:(lia) ltac:(lia)). lia.
Qed.

Lemma counts_below_sizes (count : nat -> Z) (sl : list (Z * Z)) :
  forall i0,
    (forall j s c, nth_error sl j = Some (s, c) ->
                   count (i0 + j)%nat <= c) ->
    sum_Z (counts_from count i0 (List.length sl)) <= sum_Z (slice_sizes sl).
Proof.
  induction sl as [|[s c] sl IH]; intros i0 H; [cbn; lia|].
  cbn [List.length]. rewrite counts_from_succ, sum_sizes_cons.
  cbn [sum_Z fold_right snd].
  fold (sum_Z (counts_from count (S i0) (List.length sl))).
  pose proof (H 0%nat s c eq_refl) as H0. rewrite Nat.add_0_r in H0.
  assert (Hrest : sum_Z (counts_from count (S i0) (List.length sl))
                  <= sum_Z (slice_sizes sl)).
  { apply IH. intros j s' c' Hj.
    replace (S i0 + j)%nat with (i0 + S j)%nat by lia.
    now apply (H (S j) s' c'). }
  lia.
Qed.

(** X11.  When every worker reports a count between 0 and the size of
    its slice, the total that a run with status 0 prints last is the
    sum of the counts, and it lies between 0 and the size of the
    testing set. *)
Theorem total_bounded
  (argv : list string) (w : world) (o : options) (d_func : metric)
  (training_file : string) (testing_file : option string)
  (training testing : Dataset) (count : nat -> Z) :
  loaded argv w o d_func training_file testing_file training testing ->
  status argv w = 0 ->
  0 <= num_items testing <= INT_MAX -> 1 <= num_procs o <= INT_MAX ->
  (forall i, (i < workers o)%nat -> worker w i = Reports (count i)) ->
  (forall i s c,
      nth_error (slices (num_items testing) (num_procs o)) i = Some (s, c) ->
      0 <= count i <= c) ->
  total_of w o testing = sum_Z (counts_from count 0 (workers o)) /\
  0 <= total_of w o testing <= num_items testing /\
  last (stdout_of (trace argv w)) "" = total_line (total_of w o testing).
Proof.
  intros Hl Hs Hn Hp Hw Hc.
  set (sl := slices (num_items testing) (num_procs o)) in *.
  assert (Hlen : List.length sl = workers o)
    by apply distribute_loop_length.
  assert (Hpos : forall i, (i < workers o)%nat -> 0 <= count i).
  { intros i Hi. destruct (nth_error sl i) as [[s c]|] eqn:E.
    - apply (Hc i s c E).
    - apply nth_error_None in E. lia. }
  assert (Hle : sum_Z (counts_from count 0 (workers o))
                <= num_items testing).
  { rewrite <- (slices_sum (num_items testing) (num_procs o) Hn Hp).
    rewrite <- Hlen. apply counts_below_sizes.
    intros j s c Hj. apply (Hc j s c Hj). }
  assert (Htot : total_of w o testing
                 = sum_Z (counts_from count 0 (workers o)))
    by (apply total_of_reported; [exact Hw | exact Hpos | lia]).
  split; [exact Htot|]. split.
  - rewrite Htot. split; [|exact Hle].
    apply counts_from_nonneg. intros j Hj. apply Hpos. lia.
  - unfold trace. rewrite (main_success _ _ _ _ _ _ _ _ Hl Hs). cbn [fst].
    rewrite !stdout_of_app, stdout_loading, stdout_before_report,
      stdout_report.
    now destruct (verbose o).
Qed.

Lemma sample_counts_fit (i : nat) (s c : Z) :
  nth_error (slices (num_items {| num_items := 5 |})
                    (num_procs (with_procs 2))) i = Some (s, c) ->
  0 <= sample_count i <= c.
Proof.
  change (slices (num_items {| num_items := 5 |}) (num_procs (with_procs 2)))
    with [(0, 3); (3, 2)].
  destruct i as [|[|i]]; cbn; intros H.
  - injection H as <- <-. lia.
  - injection H as <- <-. lia.
  - destruct i; discriminate.
Qed.

Lemma total_bounded_witness :
  loaded sample_argv sample_world (with_procs 2) distance_euclidean
         "train" (Some "test") {| num_items := 3 |} {| num_items := 5 |} /\
  status sample_argv sample_world = 0 /\
  0 <= total_of sample_world (with_procs 2) {| num_items := 5 |} <= 5.
Proof.
  split; [exact sample_loaded|]. split; [reflexivity|].
  refine (proj1 (proj2 (total_bounded
            sample_argv sample_world (with_procs 2) distance_euclidean
            "train" (Some "test") {| num_items := 3 |} {| num_items := 5 |}
            sample_count sample_loaded eq_refl _ _
            sample_reports sample_counts_fit))).
  - cbn. unfold INT_MAX. lia.
  - cbn. unfold INT_MAX. lia.
Defined.

(* ================================================================== *)
(** * Decimal numbers on the command line *)

Lemma strtol_digits (s : string) :
  starts_with_digit s = true -> strtol s = clamp_long (digits_value s 0).
Proof.
  destruct s as [|c r]; [discriminate|].
  destruct c as [[] [] [] [] [] [] [] []];
    intros H; solve [discriminate H | reflexivity].
Qed.

Lemma digits_value_uint (d : Decimal.uint) :
  forall acc : positive,
    digits_value (NilEmpty.string_of_uint d) (Z.pos acc)
    = Z.pos (Pos.of_uint_acc d acc).
Proof.
  induction d; intros acc; cbn [NilEmpty.string_of_uint Pos.of_uint_acc];
    [reflexivity|..];
    cbn [digits_value];
    match goal with
    | |- (if isdigit ?c then _ else _) = _ =>
        change (isdigit c) with true; cbv iota;
        let v := eval vm_compute in (byte_of c) in
        change (byte_of c) with v
    end;
    rewrite <- IHd; f_equal; lia.
Qed.

Lemma digits_value_uint_0 (d : Decimal.uint) :
  digits_value (NilEmpty.string_of_uint d) 0 = Z.of_N (Pos.of_uint d).
Proof.
  induction d; cbn [NilEmpty.string_of_uint Pos.of_uint];
    [reflexivity | exact IHd | ..];
    cbn [digits_value];
    match goal with
    | |- (if isdigit ?c then _ else _) = _ =>
        change (isdigit c) with true; cbv iota
    end;
    apply (digits_value_uint d).
Qed.

Lemma uint_starts_with_digit (d : Decimal.uint) :
  d <> Decimal.Nil ->
  starts_with_digit (NilEmpty.string_of_uint d) = true.
Proof.
  destruct d; intros H; [now elim H | reflexivity..].
Qed.

Lemma strtol_positive (p : positive) :
  strtol (NilEmpty.string_of_uint (Pos.to_uint p)) = clamp_long (Z.pos p)
  /\ NilZero.string_of_uint (Pos.to_uint p)
     = NilEmpty.string_of_uint (Pos.to_uint p).
Proof.
  pose proof (DecimalPos.Unsigned.to_uint_nonnil p) as Hn.
  split.
  - rewrite strtol_digits by now apply uint_starts_with_digit.
    rewrite digits_value_uint_0, DecimalPos.Unsigned.of_to. reflexivity.
  - unfold NilZero.string_of_uint.
    destruct (Pos.to_uint p); [now elim Hn | reflexivity..].
Qed.

(** [atoi] reads back what [printf("%d")] writes. *)
Lemma atoi_string_of_int (z : Z) : in_int z -> atoi (string_of_int z) = z.
Proof.
  unfold in_int, INT_MIN, INT_MAX. intros Hz.
  unfold atoi, string_of_int. destruct z as [|p|p].
  - reflexivity.
  - cbn [Z.to_int NilZero.string_of_int].
    destruct (strtol_positive p) as [E ->]. rewrite E.
    unfold clamp_long, LONG_MIN, LONG_MAX.
    rewrite Z.min_r, Z.max_r by lia.
    apply wrap32_small. unfold in_int, INT_MIN, INT_MAX. lia.
  - cbn [Z.to_int NilZero.string_of_int].
    destruct (strtol_positive p) as [E ->].
    assert (Es : strtol (String "-"
                           (NilEmpty.string_of_uint (Pos.to_uint p)))
                 = clamp_long (- Z.pos p)).
    { change (strtol (String "-"
                        (NilEmpty.string_of_uint (Pos.to_uint p))))
        with (clamp_long
                (- digits_value
                     (NilEmpty.string_of_uint (Pos.to_uint p)) 0)).
      now rewrite digits_value_uint_0, DecimalPos.Unsigned.of_to. }
    rewrite Es. unfold clamp_long, LONG_MIN, LONG_MAX.
    rewrite Z.min_r, Z.max_r by lia.
    apply wrap32_small. unfold in_int, INT_MIN, INT_MAX. lia.
Qed.

(** X12.  The decimal spelling of an [int], as [printf("%d")] writes
    it, given to [-K] or to [-p] sets K or the number of workers to that
    [int]. *)
Theorem decimal_option (z : Z) (o : options) :
  in_int z ->
  atoi (string_of_int z) = z /\
  K (set_option "K" (string_of_int z) o) = z /\
  num_procs (set_option "p" (string_of_int z) o) = z.
Proof.
  intros Hz. pose proof (atoi_string_of_int z Hz) as E.
  repeat split; [exact E | exact E | exact E].
Qed.

Lemma decimal_option_witness :
  in_int (-42) /\
  atoi (string_of_int (-42)) = -42 /\
  K (set_option "K" (string_of_int (-42)) defaults) = -42 /\
  num_procs (set_option "p" (string_of_int (-42)) defaults) = -42.
Proof.
  assert (Hz : in_int (-42)) by (unfold in_int, INT_MIN, INT_MAX; lia).
  split; [exact Hz|].
  exact (decimal_option (-42) defaults Hz).
Defined.

Lemma digits_value_app (s : string) (c : ascii) (r : string) :
  all_digits s = true -> isdigit c = false ->
  forall acc,
    digits_value (String.append s (String c r)) acc = digits_value s acc.
Proof.
  intros Hs Hc. induction s as [|c0 s IH]; intros acc.
  - cbn. now rewrite Hc.
  - cbn [all_digits] in Hs. apply andb_true_iff in Hs as [H0 Hs].
    cbn [String.append digits_value]. rewrite H0. apply (IH Hs).
Qed.

Lemma unsigned_numeric_inv (s : string) :
  unsigned_numeric s = true ->
  all_digits s = true /\ starts_with_digit s = true.
Proof.
  destruct s as [|c r]; [discriminate|]. cbn. intros H.
  split; [exact H|]. now apply andb_true_iff in H as [H _].
Qed.

Lemma starts_with_digit_app (s t : string) :
  starts_with_digit s = true ->
  starts_with_digit (String.append s t) = true.
Proof. destruct s; [discriminate | trivial]. Qed.

(** X13.  [atoi] stops at the first byte that is not a digit: a number
    followed by anything that does not begin with a digit is read as
    the number alone. *)
Theorem atoi_stops_at_non_digit (s : string) (c : ascii) (r : string) :
  numeric_string s = true -> isdigit c = false ->
  atoi (String.append s (String c r)) = atoi s.
Proof.
  intros Hs Hc. unfold atoi. f_equal.
  assert (Hu : forall u, unsigned_numeric u = true ->
                 strtol (String.append u (String c r)) = strtol u
                 /\ digits_value (String.append u (String c r)) 0
                    = digits_value u 0).
  { intros u Hu. destruct (unsigned_numeric_inv u Hu) as [Ha Hd].
    rewrite !strtol_digits
      by (try apply starts_with_digit_app; assumption).
    now rewrite digits_value_app. }
  destruct s as [|c0 r0]; [discriminate|].
  destruct (Ascii.eqb_spec c0 "-") as [->|Hm].
  - cbn [numeric_string] in Hs.
    change (strtol (String.append (String "-" r0) (String c r)))
      with (clamp_long (- digits_value (String.append r0 (String c r)) 0)).
    change (strtol (String "-" r0))
      with (clamp_long (- digits_value r0 0)).
    now rewrite (proj2 (Hu r0 Hs)).
  - destruct (Ascii.eqb_spec c0 "+") as [->|Hp].
    + cbn [numeric_string] in Hs.
      change (strtol (String.append (String "+" r0) (String c r)))
        with (clamp_long (digits_value (String.append r0 (String c r)) 0)).
      change (strtol (String "+" r0))
        with (clamp_long (digits_value r0 0)).
      now rewrite (proj2 (Hu r0 Hs)).
    + assert (Hs' : unsigned_numeric (String c0 r0) = true).
      { destruct c0 as [[] [] [] [] [] [] [] []];
          first [exact Hs | now elim Hm | now elim Hp]. }
      apply (Hu _ Hs').
Qed.

Lemma atoi_stops_at_non_digit_witness :
  numeric_string "12" = true /\ isdigit "a" = false /\
  atoi "12abc" = atoi "12".
Proof.
  split; [reflexivity|]. split; [reflexivity|].
  exact (atoi_stops_at_non_digit "12" "a" "bc" eq_refl eq_refl).
Defined.

(* ================================================================== *)
(** * What [-v] changes *)

Lemma calls_of_app (t t' : list event) :
  calls_of (t ++ t') = calls_of t ++ calls_of t'.
Proof. apply filter_app. Qed.

Ltac step_bind := cbv beta iota delta [bind when emit ret exit].

Lemma run_workers_verbose (w : world) (o : options) (d_func : metric)
  (testing : Dataset) :
  snd (run_workers w (set_verbose o) d_func testing)
  = snd (run_workers w o d_func testing) /\
  calls_of (fst (run_workers w (set_verbose o) d_func testing))
  = calls_of (fst (run_workers w o d_func testing)).
Proof.
  unfold run_workers, declare_fds, undefined.
  cbn [verbose set_verbose K num_procs].
  destruct (num_procs o <? 0);
    [destruct (verbose o); split; reflexivity|].
  destruct (verbose o); step_bind;
    (destruct (spawn_loop w (K o) d_func (Z.to_nat (num_procs o)) 0)
      as [t1 [[]|s1]]; step_bind; [|split; reflexivity]);
    (destruct (distribute w (num_items testing) (Z.to_nat (num_procs o)) 0
                (initial_N (num_items testing) (num_procs o)) 0 no_data)
      as [t2 [fds|s2]]; step_bind;
     [|cbn [fst snd]; rewrite ?calls_of_app; split; reflexivity]);
    (destruct (wait_loop w (Z.to_nat (num_procs o)) 0) as [t3 [[]|s3]];
     step_bind;
     [|cbn [fst snd]; rewrite ?calls_of_app; split; reflexivity]);
    (destruct (collect w (after_children w fds) (Z.to_nat (num_procs o))
                 0 0 (indeterminate w)) as [t4 [total|s4]]; step_bind);
    cbn [fst snd]; rewrite ?calls_of_app; split; reflexivity.
Qed.

Lemma run_files_verbose (w : world) (o : options)
  (training_file testing_file : option string) :
  snd (run_files w (set_verbose o) training_file testing_file)
  = snd (run_files w o training_file testing_file) /\
  calls_of (fst (run_files w (set_verbose o) training_file testing_file))
  = calls_of (fst (run_files w o training_file testing_file)).
Proof.
  unfold run_files. cbn [dist_metric set_verbose].
  destruct (select_metric (dist_metric o)) as [t0 [d|s0]]; step_bind;
    [|split; reflexivity].
  unfold run_metric, load. cbn [verbose set_verbose].
  destruct (load_dataset w training_file) as [training|];
    [|destruct (verbose o); step_bind; cbn [fst snd];
      rewrite ?calls_of_app; split; reflexivity].
  destruct (load_dataset w testing_file) as [testing|];
    [|destruct (verbose o); step_bind; cbn [fst snd];
      rewrite ?calls_of_app; split; reflexivity].
  step_bind.
  destruct (run_workers_verbose w o d testing) as [Hs Hc].
  destruct (run_workers w (set_verbose o) d testing) as [ta ra].
  destruct (run_workers w o d testing) as [tb rb].
  cbn [fst snd] in Hs, Hc. subst rb.
  destruct (verbose o); cbn [fst snd app]; rewrite ?calls_of_app;
    cbn [calls_of filter is_line negb app]; fold (calls_of ta);
    fold (calls_of tb); rewrite Hc; split; reflexivity.
Qed.

Lemma set_option_verbose (c : ascii) (optarg : string) (o : options) :
  set_option c optarg (set_verbose o) = set_verbose (set_option c optarg o).
Proof.
  unfold set_option.
  destruct (Ascii.eqb c "K"); [reflexivity|].
  destruct (Ascii.eqb c "d"); reflexivity.
Qed.

Lemma scan_cluster_verbose (cs : string) :
  forall o, scan_cluster cs (set_verbose o)
            = verbosely_end (scan_cluster cs o).
Proof.
  induction cs as [|c cs IH]; intros o; [reflexivity|].
  cbn [scan_cluster]. destruct (Ascii.eqb c "v").
  - rewrite IH. reflexivity.
  - destruct (takes_argument c); [|reflexivity].
    destruct cs; [reflexivity|].
    cbn [verbosely_end]. now rewrite set_option_verbose.
Qed.

Lemma getopt_loop_verbose (name : string) (n : nat) :
  forall args o,
    (List.length args <= n)%nat ->
    getopt_loop name args (set_verbose o)
    = verbosely (getopt_loop name args o).
Proof.
  induction n as [|n IH]; intros args o Hlen.
  - destruct args; [reflexivity | cbn in Hlen; lia].
  - destruct args as [|a rest]; [reflexivity|].
    cbn [List.length] in Hlen. rewrite !getopt_loop_cons.
    destruct (is_option_arg a); [|reflexivity].
    destruct (String.eqb a "--"); [reflexivity|].
    rewrite scan_cluster_verbose.
    destruct (scan_cluster (option_letters a) o) as [o'|c o'|c];
      cbn [verbosely_end].
    + apply IH. lia.
    + destruct rest as [|optarg rest']; [reflexivity|].
      rewrite set_option_verbose. apply IH.
      cbn [List.length] in Hlen. lia.
    + reflexivity.
Qed.

(** X14.  [-v] changes nothing but what is printed: with [-v] put
    before the other arguments, the run ends with the same status and
    the parent makes the same calls in the same order, up to the
    [perror] that ends a run that fails. *)
Theorem verbose_changes_no_call
  (name : string) (args : list string) (w : world) :
  status (name :: "-v" :: args) w = status (name :: args) w /\
  calls_of (trace (name :: "-v" :: args) w)
  = calls_of (trace (name :: args) w).
Proof.
  unfold status, trace, main, main_body. cbn [hd tl].
  change (getopt_loop name ("-v" :: args) defaults)
    with (getopt_loop name args (set_verbose defaults)).
  rewrite (getopt_loop_verbose name _ args defaults (le_n _)).
  destruct (getopt_loop name args defaults) as [t0 [[o ops]|s0]];
    cbn [verbosely]; step_bind; [|split; reflexivity].
  cbn [fst snd]. destruct ops as [|tf rest]; [split; reflexivity|].
  cbn [run_operands].
  destruct (run_files_verbose w o (Some tf) (hd_error rest)) as [Hs Hc].
  destruct (run_files w (set_verbose o) (Some tf) (hd_error rest))
    as [ta ra].
  destruct (run_files w o (Some tf) (hd_error rest)) as [tb rb].
  cbn [fst snd] in Hs, Hc. subst rb.
  destruct ra; cbn [finish fst snd]; rewrite !calls_of_app, Hc;
    split; reflexivity.
Qed.
